(** * fipilib: extraction, classification, formatting and grading codes

    A shallow embedding of the parts of [fipilib] that turn a parsed task
    fragment into a task record, format a caller's answer for the grading
    endpoint and classify the endpoint's reply, with the properties proved
    about them.

    Python values are modelled as follows.
    - [str] is a list of Unicode code points ([pystr]); literals are written
      [u "..."] and decoded from the UTF-8 bytes of the Rocq string.
    - [int] is [Z]; [list], [tuple] are [list]; a [dict] is an association
      list in insertion order (its keys are pairwise distinct in Python).
    - an exception is a value of [exn]; code that can raise returns a
      [result].
    - a BeautifulSoup [Tag] is a position in the document tree (a zipper),
      so that parents and siblings can be reached from it. *)

From Stdlib Require Import String Ascii.
From stdpp Require Import base option list sorting numbers pretty.

Open Scope N_scope.
Open Scope list_scope.

(** ** Python built-ins *)

Module Py.

Abbreviation pystr := (list N) (only parsing).

Definition bytes_of (s : string) : list N :=
  map N_of_ascii (list_ascii_of_string s).

(** Decoder for the UTF-8 bytes of a source literal. *)
Fixpoint utf8_decode (bs : list N) : pystr :=
  match bs with
  | [] => []
  | b0 :: r0 =>
    if b0 <? 128 then b0 :: utf8_decode r0
    else match r0 with
    | [] => []
    | b1 :: r1 =>
      if b0 <? 224 then ((b0 - 192) * 64 + (b1 - 128)) :: utf8_decode r1
      else match r1 with
      | [] => []
      | b2 :: r2 =>
        if b0 <? 240
        then ((b0 - 224) * 4096 + (b1 - 128) * 64 + (b2 - 128)) :: utf8_decode r2
        else match r2 with
        | [] => []
        | b3 :: r3 =>
          ((b0 - 240) * 262144 + (b1 - 128) * 4096 + (b2 - 128) * 64 + (b3 - 128))
            :: utf8_decode r3
        end
      end
    end
  end.

Definition u (s : string) : pystr := utf8_decode (bytes_of s).
Global Arguments u : simpl never.

(** [str.isspace] on one character: the code points of Unicode white space
    as CPython's [_PyUnicode_IsWhitespace] lists them.  The regular
    expression class [\s] on [str] patterns is the same set. *)
Definition isspace (c : N) : bool :=
  ((9 <=? c) && (c <=? 13)) || ((28 <=? c) && (c <=? 32))
  || (c =? 133) || (c =? 160) || (c =? 5760)
  || ((8192 <=? c) && (c <=? 8202))
  || (c =? 8232) || (c =? 8233) || (c =? 8239) || (c =? 8287) || (c =? 12288).

Fixpoint lstrip (s : pystr) : pystr :=
  match s with
  | [] => []
  | c :: s' => if isspace c then lstrip s' else s
  end.

Definition rstrip (s : pystr) : pystr := rev (lstrip (rev s)).

(** [s.strip()] *)
Definition strip (s : pystr) : pystr := rstrip (lstrip s).

Fixpoint startswith (s p : pystr) : bool :=
  match p, s with
  | [], _ => true
  | _ :: _, [] => false
  | a :: p', b :: s' => (a =? b) && startswith s' p'
  end.

(** [s.replace(old, new)] for a non-empty [old]: occurrences are replaced
    from the left and do not overlap.  [skip] counts the characters of an
    occurrence still to be dropped. *)
Fixpoint replace_from (old new : pystr) (skip : nat) (s : pystr) : pystr :=
  match s with
  | [] => []
  | c :: s' =>
    match skip with
    | S k => replace_from old new k s'
    | O =>
      if startswith s old
      then new ++ replace_from old new (pred (length old)) s'
      else c :: replace_from old new 0 s'
    end
  end.

Definition replace (s old new : pystr) : pystr := replace_from old new 0 s.

(** [sep.join(l)] *)
Fixpoint join (sep : pystr) (l : list pystr) : pystr :=
  match l with
  | [] => []
  | [x] => x
  | x :: l' => x ++ sep ++ join sep l'
  end.

(** [enumerate(l)], and [enumerate(l, start)]. *)
Fixpoint enumerate_from {A} (start : nat) (l : list A) : list (nat * A) :=
  match l with
  | [] => []
  | x :: l' => (start, x) :: enumerate_from (S start) l'
  end.

Definition enumerate {A} (l : list A) : list (nat * A) := enumerate_from 0 l.

(** [str(z)] for an [int]. *)
Definition str_of_int (z : Z) : pystr := bytes_of (pretty z).

(** [a < b] on [str]: lexicographic on code points. *)
Fixpoint str_ltb (a b : pystr) : bool :=
  match a, b with
  | _, [] => false
  | [], _ :: _ => true
  | x :: a', y :: b' =>
    if x <? y then true else if y <? x then false else str_ltb a' b'
  end.

Definition str_le (a b : pystr) : Prop := str_ltb b a = false.

Global Instance str_le_dec : RelDecision str_le.
Proof. intros a b. unfold str_le. apply _. Defined.

(** [sorted(l)] on a list of [str]: the ascending rearrangement. *)
Definition sorted (l : list pystr) : list pystr := merge_sort str_le l.

(** Dictionaries: association lists in insertion order. *)
Abbreviation dict K V := (list (K * V)) (only parsing).

Fixpoint dict_get {K V} `{EqDecision K} (d : dict K V) (k : K) : option V :=
  match d with
  | [] => None
  | (k', v) :: d' => if decide (k' = k) then Some v else dict_get d' k
  end.

Definition keys {K V} (d : dict K V) : list K := map fst d.

(** Exceptions and results. *)
Inductive exn :=
  | TypeError (msg : pystr)
  | IndexError (msg : pystr)
  | KeyError (key : pystr)
  | ValueError (msg : pystr).

Inductive result (A : Type) :=
  | Ok (a : A)
  | Raise (e : exn).
Arguments Ok {A} a.
Arguments Raise {A} e.

Definition is_Ok {A} (r : result A) : bool :=
  match r with
  | Ok _ => true
  | Raise _ => false
  end.

Global Instance result_ret : MRet result := fun A a => Ok a.
Global Instance result_bind : MBind result := fun A B f m =>
  match m with
  | Ok a => f a
  | Raise e => Raise e
  end.

(** A [for] loop threading a state through a body that can raise. *)
Fixpoint for_loop {S A} (body : S -> A -> result S) (l : list A) (s : S)
  : result S :=
  match l with
  | [] => Ok s
  | x :: l' => s' ← body s x; for_loop body l' s'
  end.

(** [d[k] = v] *)
Fixpoint dict_set {K V} `{EqDecision K} (d : dict K V) (k : K) (v : V)
  : dict K V :=
  match d with
  | [] => [(k, v)]
  | (k', v') :: d' =>
    if decide (k' = k) then (k', v) :: d' else (k', v') :: dict_set d' k v
  end.

(** [d[k]] *)
Definition dict_item {V} (d : dict pystr V) (k : pystr) : result V :=
  match dict_get d k with
  | Some v => Ok v
  | None => Raise (KeyError k)
  end.

(** [re.sub(r'\s+', ' ', s)]: every maximal run of white space becomes one
    space.  [in_run] tells that the previous character was white space. *)
Fixpoint sub_spaces (in_run : bool) (s : pystr) : pystr :=
  match s with
  | [] => []
  | c :: s' =>
    if isspace c
    then (if in_run then sub_spaces true s' else 32 :: sub_spaces true s')
    else c :: sub_spaces false s'
  end.

(** Caller-supplied answers.  An [atom] is a value whose [str()] the model
    computes; containers hold atoms. *)
Inductive atom :=
  | AStr (s : pystr)
  | AInt (z : Z).

Inductive pyval :=
  | VStr (s : pystr)
  | VInt (z : Z)
  | VList (l : list atom)
  | VTuple (l : list atom)
  | VDict (d : dict pystr atom).

Definition str_of_atom (a : atom) : pystr :=
  match a with
  | AStr s => s
  | AInt z => str_of_int z
  end.

(** What [for x in v] iterates over: the items of a list or tuple, the keys
    of a dict, the characters of a string; an [int] is not iterable. *)
Definition iter (v : pyval) : result (list atom) :=
  match v with
  | VList l | VTuple l => Ok l
  | VDict d => Ok (map AStr (keys d))
  | VStr s => Ok (map (fun c => AStr [c]) s)
  | VInt _ => Raise (TypeError (u "'int' object is not iterable"))
  end.

(** What [0 <= x] raises for a [str] item [x]. *)
Definition le_int_str : exn :=
  TypeError (u "'<=' not supported between instances of 'int' and 'str'").

End Py.

Import Py.

(** ** [fipilib.models] *)

Module Models.

(** [models/task.py] *)
Inductive TaskType :=
  | SHORT_ANSWER
  | MULTIPLE_CHOICE
  | MATCHING
  | EXTENDED_ANSWER.

Global Instance TaskType_eq_dec : EqDecision TaskType.
Proof. solve_decision. Defined.

Record AnswerVariant := mkAnswerVariant {
  index : Z;
  av_text : pystr;
  input_name : pystr
}.

Record MatchingOption := mkMatchingOption {
  letter : pystr;
  mo_text : pystr;
  select_name : pystr
}.

Record MatchingChoice := mkMatchingChoice {
  number : pystr;
  mc_text : pystr
}.

Record Task := mkTask {
  guid : pystr;
  task_id : pystr;
  subject : pystr;
  task_type : TaskType;
  question_text : pystr;
  question_html : pystr;
  answer_variants : option (list AnswerVariant);
  matching_options : option (list MatchingOption);
  matching_choices : option (list MatchingChoice);
  answer_unit : option pystr;
  images : list pystr;
  kes_codes : list pystr;
  metadata : dict pystr pystr
}.

(** [models/result.py] *)
Inductive CheckResult :=
  | CORRECT
  | INCORRECT
  | PARTIALLY_CORRECT
  | ERROR.

Record CheckResponse := mkCheckResponse {
  cr_guid : pystr;
  cr_task_id : pystr;
  result_ : CheckResult;
  user_answer : pystr;
  result_code : pystr;
  error : option pystr
}.

(** [models/config.py] *)
Record SubjectConfig := mkSubjectConfig {
  subject_key : pystr;
  project_id : pystr;
  display_name : pystr;
  base_url : pystr;
  request_timeout : Z;
  request_delay : Qp
}.

Definition SUBJECTS : dict pystr SubjectConfig :=
  [ (u "physics",
     mkSubjectConfig (u "physics") (u "BA1F39653304A5B041B656915DC36B38")
       (u "Физика") (u "https://ege.fipi.ru") 30 1%Qp);
    (u "math_prof",
     mkSubjectConfig (u "math_prof") (u "AC437B34557F88EA4115D2F374B0A07B")
       (u "Математика (профильный уровень)") (u "https://ege.fipi.ru") 30 1%Qp);
    (u "russian",
     mkSubjectConfig (u "russian") (u "CA9D848CF10554A28617021C9211069B")
       (u "Русский язык") (u "https://ege.fipi.ru") 30 1%Qp) ].

Definition get_subject_config (subject_key : pystr) : result SubjectConfig :=
  match dict_get SUBJECTS subject_key with
  | None =>
    let available := join (u ", ") (keys SUBJECTS) in
    Raise (ValueError (u "Предмет '" ++ subject_key ++ u "' не найден. "
                       ++ u "Доступные предметы: " ++ available))
  | Some config => Ok config
  end.

End Models.

Import Models.

(** ** [fipilib.utils.answer_helpers] *)

Module AnswerHelper.

Definition binary_string_to_indices (binary_str : pystr) : list Z :=
  map (fun p => Z.of_nat p.1)
      (filter (fun p : nat * N => p.2 = 49) (enumerate binary_str)).

Definition indices_to_binary_string (indices : list Z) (total : Z) : pystr :=
  let bits := replicate (Z.to_nat total) (u "0") in
  let bits :=
    fold_left
      (fun bits idx =>
         if bool_decide (0 <= idx)%Z && bool_decide (idx < total)%Z
         then <[Z.to_nat idx := u "1"]> bits
         else bits)
      indices bits in
  join [] bits.

(** [format_matching_answer(mapping)]; a missing key raises [KeyError]. *)
Definition format_matching_answer (mapping : dict pystr atom) : result pystr :=
  let sorted_letters := sorted (keys mapping) in
  parts ← mapM (fun letter => v ← dict_item mapping letter; Ok (str_of_atom v))
               sorted_letters;
  Ok (join [] parts).

End AnswerHelper.

(** ** [fipilib.core.base_checker] and the subject checkers *)

Module Checker.

Inductive CheckerClass :=
  | DefaultChecker
  | MathProfChecker
  | PhysicsChecker
  | RussianChecker.

(** [BaseChecker._parse_result_code] *)
Definition code_map : dict pystr CheckResult :=
  [ (u "1", CORRECT); (u "3", CORRECT); (u "2", INCORRECT); (u "0", ERROR) ].

Definition _parse_result_code (code : pystr) : CheckResult :=
  default ERROR (dict_get code_map code).

(** [DefaultChecker._format_multiple_choice] *)
Definition _format_multiple_choice (task : Task) (user_input : pyval)
  : result pystr :=
  match user_input with
  | VStr s => Ok s
  | _ =>
    let num_variants :=
      match answer_variants task with
      | Some ((_ :: _) as variants) => Z.of_nat (length variants)
      | _ => 5%Z
      end in
    let answer_bits := replicate (Z.to_nat num_variants) (u "0") in
    items ← iter user_input;
    answer_bits ←
      for_loop
        (fun answer_bits idx =>
           match idx with
           | AInt idx =>
             Ok (if bool_decide (0 <= idx)%Z && bool_decide (idx < num_variants)%Z
                 then <[Z.to_nat idx := u "1"]> answer_bits
                 else answer_bits)
           | AStr _ => Raise le_int_str
           end)
        items answer_bits;
    Ok (join [] answer_bits)
  end.

Record checker := mkChecker {
  checker_class : CheckerClass;
  checker_config : SubjectConfig
}.

(** What one grading request comes to: the stripped response body, or an
    exception [e] of the transport, kept as [str(e)]. *)
Inductive outcome :=
  | Body (text : pystr)
  | Failed (message : pystr).

Section Formatting.

(** Python's own [str()] of a list, a tuple or a dict, which the
    formatters fall back on for values they do not handle. *)
Variable str_container : pyval -> pystr.

Definition py_str (v : pyval) : pystr :=
  match v with
  | VStr s => s
  | VInt z => str_of_int z
  | _ => str_container v
  end.

(** [DefaultChecker] *)
Definition _format_short_answer (user_input : pyval) : pystr :=
  strip (py_str user_input).

Definition _format_matching (user_input : pyval) : result pystr :=
  match user_input with
  | VStr s => Ok s
  | VDict d =>
    let sorted_letters := sorted (keys d) in
    parts ← mapM (fun letter => v ← dict_item d letter; Ok (str_of_atom v))
                 sorted_letters;
    Ok (join [] parts)
  | VList l | VTuple l => Ok (join [] (map str_of_atom l))
  | _ => Ok (py_str user_input)
  end.

Definition default_format_answer (task : Task) (user_input : pyval)
  : result pystr :=
  match task_type task with
  | SHORT_ANSWER => Ok (_format_short_answer user_input)
  | MULTIPLE_CHOICE => _format_multiple_choice task user_input
  | MATCHING => _format_matching user_input
  | _ => Ok (py_str user_input)
  end.

(** [MathProfChecker] *)
Definition _format_math_short_answer (user_input : pyval) : pystr :=
  let answer := strip (py_str user_input) in
  let answer := replace answer (u ",") (u ".") in
  let answer := replace answer (u " ") [] in
  answer.

(** [PhysicsChecker] *)
Definition _format_physics_short_answer (user_input : pyval) : pystr :=
  let answer := strip (py_str user_input) in
  let answer := replace answer (u ",") (u ".") in
  let answer := replace answer (u " ") [] in
  answer.

(** [RussianChecker] *)
Definition _format_russian_short_answer (user_input : pyval) : pystr :=
  let answer := strip (py_str user_input) in
  sub_spaces false answer.

(** [format_answer], dispatched on the checker's class. *)
Definition format_answer (cls : CheckerClass) (task : Task)
    (user_input : pyval) : result pystr :=
  match cls with
  | DefaultChecker => default_format_answer task user_input
  | MathProfChecker =>
    if decide (task_type task = SHORT_ANSWER)
    then Ok (_format_math_short_answer user_input)
    else default_format_answer task user_input
  | PhysicsChecker =>
    if decide (task_type task = SHORT_ANSWER)
    then Ok (_format_physics_short_answer user_input)
    else default_format_answer task user_input
  | RussianChecker =>
    if decide (task_type task = SHORT_ANSWER)
    then Ok (_format_russian_short_answer user_input)
    else default_format_answer task user_input
  end.


(** [BaseChecker._send_check_request]: the HTTP exchange. *)
Variable _send_check_request : SubjectConfig -> pystr -> pystr -> outcome.

(** [BaseChecker.check_answer]: the answer is formatted before the [try]
    block is entered. *)
Definition check_answer (self : checker) (task : Task) (user_input : pyval)
  : result CheckResponse :=
  answer_str ← format_answer (checker_class self) task user_input;
  Ok (match _send_check_request (checker_config self) (guid task) answer_str with
      | Body result_code =>
        let result := _parse_result_code result_code in
        mkCheckResponse (guid task) (task_id task) result answer_str
                        result_code None
      | Failed message =>
        mkCheckResponse (guid task) (task_id task) ERROR answer_str
                        [] (Some message)
      end).

End Formatting.

End Checker.

(** ** The BeautifulSoup tree, as far as the parsers use it *)

Module Soup.

(** An element keeps its [class] attribute apart, as the list of tokens
    BeautifulSoup stores for it; the other attributes are strings.  [Text]
    is a string of the document; the class the tree builder gives it
    depends on the elements above it, see [class_in] below.  Comments and
    declarations are left out of the tree: no search by tag name finds
    them and no text holds them. *)
#[warnings="-register-all"]
Inductive node :=
  | Text (s : pystr)
  | Elem (name : pystr) (classes : list pystr) (attrs : dict pystr pystr)
         (children : list node).

(** One step from a node to its parent: the parent's own data, and the
    node's siblings, the ones before it nearest first. *)
Record frame := mkFrame {
  f_name : pystr;
  f_classes : list pystr;
  f_attrs : dict pystr pystr;
  f_left : list node;
  f_right : list node
}.

(** A [Tag]: a subtree together with the way up to the document. *)
Definition tag : Type := list frame * node.

Definition top (n : node) : tag := ([], n).

(** [t.descendants]: in document order. *)
Fixpoint descendants_of (ctx : list frame) (n : node) : list tag :=
  match n with
  | Text _ => []
  | Elem nm cl ats cs =>
    (fix go (left cs : list node) {struct cs} : list tag :=
       match cs with
       | [] => []
       | c :: rest =>
         let ctx' := mkFrame nm cl ats left rest :: ctx in
         (ctx', c) :: descendants_of ctx' c ++ go (c :: left) rest
       end) [] cs
  end.

Definition descendants (t : tag) : list tag := descendants_of t.1 t.2.

(** The search criteria of [find] and [find_all]: a tag name, optionally a
    class ([class_=...]) and required attribute values. *)
Definition matches (nm : pystr) (class_ : option pystr)
    (want : dict pystr pystr) (t : tag) : bool :=
  match t.2 with
  | Text _ => false
  | Elem n cl ats _ =>
    bool_decide (n = nm)
    && match class_ with
       | None => true
       | Some c => bool_decide (c ∈ cl) || bool_decide (join (u " ") cl = c)
       end
    && forallb (fun kv : pystr * pystr =>
                  bool_decide (dict_get ats kv.1 = Some kv.2)) want
  end.

Definition find_all (t : tag) (nm : pystr) (class_ : option pystr)
    (want : dict pystr pystr) : list tag :=
  List.filter (matches nm class_ want) (descendants t).

Definition find (t : tag) (nm : pystr) (class_ : option pystr)
    (want : dict pystr pystr) : option tag :=
  head (find_all t nm class_ want).

(** [t.get(key, default)] for an attribute other than [class]. *)
Definition get (t : tag) (key : pystr) (default_ : pystr) : pystr :=
  match t.2 with
  | Text _ => default_
  | Elem _ _ ats _ => default default_ (dict_get ats key)
  end.

(** The classes of string the HTML tree builder tells apart: a string
    below an [rt], [rp], [style], [script] or [template] element has the
    class of the nearest such element above it, and every other string is
    a plain [NavigableString]. *)
Inductive string_class :=
  | NavigableString
  | RubyTextString
  | RubyParenthesisString
  | Stylesheet
  | Script
  | TemplateString.

Global Instance string_class_eq_dec : EqDecision string_class.
Proof. solve_decision. Defined.

(** The builder's [string_containers]. *)
Definition string_container (name : pystr) : option string_class :=
  if decide (name = u "rt") then Some RubyTextString
  else if decide (name = u "rp") then Some RubyParenthesisString
  else if decide (name = u "style") then Some Stylesheet
  else if decide (name = u "script") then Some Script
  else if decide (name = u "template") then Some TemplateString
  else None.

(** The class of a string at the end of the way [ctx] up to the
    document. *)
Fixpoint class_in (ctx : list frame) : string_class :=
  match ctx with
  | [] => NavigableString
  | f :: ctx' =>
    match string_container (f_name f) with
    | Some c => c
    | None => class_in ctx'
    end
  end.

(** The strings below a node with their classes, in document order;
    [outer] is the class in force around the node. *)
Fixpoint strings (outer : string_class) (n : node)
  : list (string_class * pystr) :=
  match n with
  | Text s => [(outer, s)]
  | Elem nm _ _ cs =>
    concat (map (strings (default outer (string_container nm))) cs)
  end.

(** [t.interesting_string_types]: the class of a container's own strings,
    and plain strings for every other element. *)
Definition interesting_string_types (t : tag) : string_class :=
  match t.2 with
  | Text _ => NavigableString
  | Elem nm _ _ _ => default NavigableString (string_container nm)
  end.

(** [t._all_strings()]: the strings below [t] of the class [t] is
    interested in.  The text of a script, a style sheet, a template or a
    ruby annotation is left out of the text of an element around it. *)
Definition all_strings (t : tag) : list pystr :=
  snd <$> List.filter
            (fun cs : string_class * pystr =>
               bool_decide (cs.1 = interesting_string_types t))
            (strings (class_in t.1) t.2).

(** [t.get_text()] and [t.get_text(strip=True)] *)
Definition get_text (t : tag) : pystr := join [] (all_strings t).

Definition get_text_strip (t : tag) : pystr :=
  join [] (List.filter (fun s => negb (bool_decide (s = [])))
                       (map strip (all_strings t))).

(** [t.parents]: nearest first. *)
Fixpoint parents_of (ctx : list frame) (n : node) : list tag :=
  match ctx with
  | [] => []
  | f :: ctx' =>
    let p := Elem (f_name f) (f_classes f) (f_attrs f)
                  (rev_append (f_left f) (n :: f_right f)) in
    (ctx', p) :: parents_of ctx' p
  end.

Definition parents (t : tag) : list tag := parents_of t.1 t.2.

(** [t.parent] *)
Definition parent (t : tag) : option tag := head (parents t).

(** [t.find_parent(nm)] *)
Definition find_parent (t : tag) (nm : pystr) : option tag :=
  head (List.filter (matches nm None []) (parents t)).

(** [t.previous_siblings]: nearest first. *)
Fixpoint siblings_before (f : frame) (ctx : list frame) (left right : list node)
  : list tag :=
  match left with
  | [] => []
  | s :: left' =>
    (mkFrame (f_name f) (f_classes f) (f_attrs f) left' right :: ctx, s)
      :: siblings_before f ctx left' (s :: right)
  end.

Definition previous_siblings (t : tag) : list tag :=
  match t.1 with
  | [] => []
  | f :: ctx => siblings_before f ctx (f_left f) (t.2 :: f_right f)
  end.

(** [t.find_previous_sibling(nm)] *)
Definition find_previous_sibling (t : tag) (nm : pystr) : option tag :=
  head (List.filter (matches nm None []) (previous_siblings t)).

End Soup.

Import Soup.

(** ** [fipilib.core.base_parser] and [fipilib.subjects.default.parser] *)

Module Parser.

Inductive ParserClass :=
  | DefaultParser
  | PhysicsParser
  | MathProfParser
  | RussianParser.

Record parser := mkParser {
  parser_class : ParserClass;
  parser_config : SubjectConfig
}.

(** The keyword arguments a parsed answer block adds to the task. *)
Record answer_data := mkAnswerData {
  ad_answer_variants : option (list AnswerVariant);
  ad_matching_options : option (list MatchingOption);
  ad_matching_choices : option (list MatchingChoice);
  ad_answer_unit : option pystr
}.

Definition no_data : answer_data := mkAnswerData None None None None.

(** [BaseParser._clean_text] *)
Definition _clean_text (text : pystr) : pystr :=
  let text := sub_spaces false text in
  let text := strip text in
  let text := replace text (u "&nbsp;") (u " ") in
  text.

(** [BaseParser._extract_guid] *)
Definition _extract_guid (block : tag) : option pystr :=
  match find block (u "input") None [(u "name", u "guid")] with
  | Some guid_input => Some (get guid_input (u "value") [])
  | None => None
  end.

(** [BaseParser._extract_task_id]; an empty [guid] gives [None]. *)
Definition _extract_task_id (block : tag) : option pystr :=
  match find block (u "span") (Some (u "canselect")) [] with
  | Some task_id_span => Some (get_text_strip task_id_span)
  | None =>
    match find block (u "input") None [(u "name", u "guid")] with
    | Some guid_input =>
      let guid := get guid_input (u "value") [] in
      match guid with
      | [] => None
      | _ => Some (take 8 guid)
      end
    | None => None
    end
  end.

(** [not x] for an optional string: [None] and the empty string. *)
Definition falsy (x : option pystr) : bool :=
  match x with
  | None | Some [] => true
  | Some _ => false
  end.

(** The character class of the unit pattern in [_parse_short_answer]:
    Cyrillic and Latin letters and the degree sign. *)
Definition unit_char (c : N) : bool :=
  ((1072 <=? c) && (c <=? 1103)) || ((1040 <=? c) && (c <=? 1071))
  || ((97 <=? c) && (c <=? 122)) || ((65 <=? c) && (c <=? 90)) || (c =? 176).

Fixpoint take_while (f : N -> bool) (s : pystr) : pystr :=
  match s with
  | [] => []
  | c :: s' => if f c then c :: take_while f s' else []
  end.

Fixpoint drop_while (f : N -> bool) (s : pystr) : pystr :=
  match s with
  | [] => []
  | c :: s' => if f c then drop_while f s' else s
  end.

(** The unit pattern matched at the start of [s]: the closing tag of the
    input, white space, then the letters of the group. *)
Definition unit_at (s : pystr) : option pystr :=
  if startswith s (u "</input>")
  then match take_while unit_char (drop_while isspace (drop 8 s)) with
       | [] => None
       | g => Some g
       end
  else None.

(** [re.search] of the unit pattern: the leftmost match's group. *)
Fixpoint search_unit (s : pystr) : option pystr :=
  match s with
  | [] => None
  | _ :: s' =>
    match unit_at s with
    | Some g => Some g
    | None => search_unit s'
    end
  end.

(** [x[-1]] *)
Definition last_item {A} (l : list A) : result A :=
  match last l with
  | Some x => Ok x
  | None => Raise (IndexError (u "list index out of range"))
  end.

(** [DefaultParser._parse_multiple_choice] *)
Definition _parse_multiple_choice (block : tag)
  : result (TaskType * answer_data) :=
  let active_rows := find_all block (u "tr") (Some (u "active-distractor")) [] in
  variants ←
    for_loop
      (fun variants (idx_row : nat * tag) =>
         let '(idx, row) := idx_row in
         match find row (u "input") None [(u "type", u "checkbox")] with
         | None => Ok variants
         | Some checkbox =>
           text_cell ← last_item (find_all row (u "td") None []);
           let variant_text := _clean_text (get_text text_cell) in
           let input_name :=
             get checkbox (u "name") (u "test" ++ str_of_int (Z.of_nat idx)) in
           Ok (variants
                 ++ [mkAnswerVariant (Z.of_nat idx) variant_text input_name])
         end)
      (enumerate active_rows) [];
  Ok (MULTIPLE_CHOICE,
      mkAnswerData (Some variants) None None None).

(** [chr(ord('А') + idx)]; a code point as long as [idx] is below
    1113072, which a document's number of select elements is. *)
Definition default_letter (idx : nat) : pystr := [1040 + N.of_nat idx].

(** [DefaultParser._parse_matching], the loop over the select elements. *)
Definition matching_options_of (block : tag) : list MatchingOption :=
  let selects := find_all block (u "select") None [] in
  fold_left
    (fun options (idx_select : nat * tag) =>
       let '(idx, select) := idx_select in
       let select_name :=
         get select (u "name") (u "ans" ++ str_of_int (Z.of_nat idx)) in
       match find_parent select (u "td") with
       | Some parent_td =>
         let letter :=
           match find_previous_sibling parent_td (u "td") with
           | Some prev_td => _clean_text (get_text prev_td)
           | None => default_letter idx
           end in
         let text := u "Вариант " ++ letter in
         options ++ [mkMatchingOption letter text select_name]
       | None => options
       end)
    (enumerate selects) [].

Section Externals.

(** [str(t)]: BeautifulSoup's serialisation of a subtree. *)
Variable tag_str : node -> pystr.

(** The regular-expression class [\d] on [str]: the decimal digits of
    Unicode. *)
Variable decimal_digit : N -> bool.

(** [DefaultParser._parse_short_answer] *)
Definition _parse_short_answer (block : tag) : TaskType * answer_data :=
  let answer_unit :=
    match find block (u "input") None
               [(u "type", u "text"); (u "name", u "answer")] with
    | Some text_input =>
      match parent text_input with
      | Some parent =>
        match search_unit (tag_str parent.2) with
        | Some g => Some (strip g)
        | None => None
        end
      | None => None
      end
    | None => None
    end in
  (SHORT_ANSWER, mkAnswerData None None None answer_unit).

(** [re.match(r'^\d+\)', s)] *)
Definition is_choice_number (s : pystr) : bool :=
  match take_while decimal_digit s with
  | [] => false
  | _ => startswith (drop_while decimal_digit s) (u ")")
  end.

(** [DefaultParser._parse_matching], the loop over the table rows. *)
Definition matching_choices_of (block : tag) : list MatchingChoice :=
  let choice_rows := find_all block (u "tr") None [] in
  fold_left
    (fun choices row =>
       match find_all row (u "td") None [] with
       | number_cell :: text_cell :: _ =>
         let number_text := _clean_text (get_text number_cell) in
         if is_choice_number number_text
         then
           let number := strip (replace number_text (u ")") []) in
           let choice_text := _clean_text (get_text text_cell) in
           choices ++ [mkMatchingChoice number choice_text]
         else choices
       | _ => choices
       end)
    choice_rows [].

Definition _parse_matching (block : tag) : TaskType * answer_data :=
  let options := matching_options_of block in
  let choices := matching_choices_of block in
  (MATCHING, mkAnswerData None (Some options) (Some choices) None).

(** The block the answer controls are looked up in. *)
Definition variants_block_of (block : tag) : tag :=
  match find block (u "div") (Some (u "varinats-block")) [] with
  | Some variants_block => variants_block
  | None => block
  end.

(** [DefaultParser.parse_answer_block] *)
Definition parse_answer_block (block : tag)
  : result (TaskType * answer_data) :=
  let variants_block := variants_block_of block in
  match find variants_block (u "input") None
             [(u "type", u "text"); (u "name", u "answer")] with
  | Some _ => Ok (_parse_short_answer variants_block)
  | None =>
    match find_all variants_block (u "input") None
                   [(u "type", u "checkbox")] with
    | _ :: _ => _parse_multiple_choice variants_block
    | [] =>
      match find_all variants_block (u "select") None [] with
      | _ :: _ => Ok (_parse_matching variants_block)
      | [] => Ok (SHORT_ANSWER, no_data)
      end
    end
  end.

(** [BaseParser._extract_question] *)
Definition _extract_question (block : tag) : pystr * pystr :=
  match find block (u "td") (Some (u "cell_0")) [] with
  | None => ([], [])
  | Some cell0 => (tag_str cell0.2, _clean_text (get_text cell0))
  end.

(** [BaseParser._extract_images] and [BaseParser._extract_kes]: pattern
    scans of the question markup and of the information block. *)
Variable _extract_images : pystr -> list pystr.
Variable _extract_kes : tag -> list pystr.

(** [post_process_task] of the parser's class. *)
Variable post_process_task : parser -> Task -> result Task.

(** [BaseParser.parse_task_block]: [None] when the identifier or the
    display id is missing, and when anything below raises. *)
Definition parse_task_block (self : parser) (block : tag) : option Task :=
  let guid := _extract_guid block in
  let task_id := _extract_task_id block in
  if falsy guid || falsy task_id then None
  else
    let '(question_html, question_text) := _extract_question block in
    let images := _extract_images question_html in
    let kes_codes := _extract_kes block in
    match
      (answer ← parse_answer_block block;
       let '(task_type, answer_data) := answer in
       post_process_task self
         (mkTask (default [] guid) (default [] task_id)
                 (subject_key (parser_config self)) task_type
                 question_text question_html
                 (ad_answer_variants answer_data)
                 (ad_matching_options answer_data)
                 (ad_matching_choices answer_data)
                 (ad_answer_unit answer_data)
                 images kes_codes []))
    with
    | Ok task => Some task
    | Raise _ => None
    end.

(** [BaseParser.parse_page], from the parsed document on. *)
Definition parse_page (self : parser) (soup : tag) : list Task :=
  let task_blocks := find_all soup (u "div") (Some (u "qblock")) [] in
  fold_left
    (fun tasks block =>
       match parse_task_block self block with
       | Some task => tasks ++ [task]
       | None => tasks
       end)
    task_blocks [].

End Externals.

End Parser.

(** ** [fipilib.subjects]: the registry *)

Module Subjects.

Import Checker Parser.

Definition register_parser (_PARSERS : dict pystr ParserClass)
    (subject_key : pystr) (parser_class : ParserClass)
  : dict pystr ParserClass :=
  dict_set _PARSERS subject_key parser_class.

Definition register_checker (_CHECKERS : dict pystr CheckerClass)
    (subject_key : pystr) (checker_class : CheckerClass)
  : dict pystr CheckerClass :=
  dict_set _CHECKERS subject_key checker_class.

(** The registries once the package is imported: [register_physics()],
    [register_math_prof()], [register_russian()], and [register_default()],
    which registers nothing. *)
Definition _PARSERS : dict pystr ParserClass :=
  let r := register_parser [] (u "physics") PhysicsParser in
  let r := register_parser r (u "math_prof") MathProfParser in
  let r := register_parser r (u "russian") RussianParser in
  r.

Definition _CHECKERS : dict pystr CheckerClass :=
  let r := register_checker [] (u "physics") PhysicsChecker in
  let r := register_checker r (u "math_prof") MathProfChecker in
  let r := register_checker r (u "russian") RussianChecker in
  r.

(** [get_parser], over the current registry. *)
Definition get_parser (registry : dict pystr ParserClass)
    (subject_key : pystr) : result parser :=
  config ← get_subject_config subject_key;
  match dict_get registry subject_key with
  | Some parser_class => Ok (mkParser parser_class config)
  | None => Ok (mkParser DefaultParser config)
  end.

(** [get_checker], over the current registry. *)
Definition get_checker (registry : dict pystr CheckerClass)
    (subject_key : pystr) : result checker :=
  config ← get_subject_config subject_key;
  match dict_get registry subject_key with
  | Some checker_class => Ok (mkChecker checker_class config)
  | None => Ok (mkChecker DefaultChecker config)
  end.

End Subjects.

Import Checker Parser Subjects.

(** * Auxiliary definitions and sample inputs *)

(** The bit-setting loop shared by [indices_to_binary_string] and
    [_format_multiple_choice]. *)
Definition set_bit (total : Z) (bits : list pystr) (idx : Z) : list pystr :=
  if bool_decide (0 <= idx)%Z && bool_decide (idx < total)%Z
  then <[Z.to_nat idx := u "1"]> bits
  else bits.

(** The characters of the loop's result on a row of zeros: a one exactly at
    the positions among [idxs]. *)
Definition bit_at (idxs : list Z) (i : nat) : N :=
  if bool_decide (Z.of_nat i ∈ idxs) then 49 else 48.

(** The width [_format_multiple_choice] works with. *)
Definition width_of (task : Task) : nat :=
  match answer_variants task with
  | Some ((_ :: _) as variants) => length variants
  | _ => 5
  end.

Definition sample_task (task_type : TaskType)
    (answer_variants : option (list AnswerVariant)) : Task :=
  mkTask (u "3F1A9C0012") (u "3F1A9C") (u "physics") task_type
         (u "Выберите верные утверждения.") (u "<td class='cell_0'></td>")
         answer_variants None None None [] [] [].

Definition physics_checker : checker :=
  mkChecker PhysicsChecker
    (mkSubjectConfig (u "physics") (u "BA1F39653304A5B041B656915DC36B38")
       (u "Физика") (u "https://ege.fipi.ru") 30 1%Qp).

Definition five_variants : list AnswerVariant :=
  map (fun i => mkAnswerVariant (Z.of_nat i) (u "вариант")
                                (u "test" ++ str_of_int (Z.of_nat i)))
      (seq 0 5).

(** What a letter contributes: [str()] of the number chosen for it. *)
Definition chosen (d : dict pystr atom) (letter : pystr) : pystr :=
  default [] (str_of_atom <$> dict_get d letter).

(** The normal form of a numeric answer: commas become points, then
    spaces go. *)
Definition numeric_form (s : pystr) : pystr :=
  filter (fun c => c <> 32) ((fun c => if c =? 44 then 46 else c) <$> s).

Definition el (name : string) (classes : list string)
    (attrs : list (string * string)) (children : list node) : node :=
  Elem (u name) (u <$> classes) ((fun kv => (u kv.1, u kv.2)) <$> attrs)
       children.

(** A block whose checkbox sits in the variants block and whose text input
    named answer sits outside of it. *)
Definition fragment_scoped : node :=
  el "div" ["qblock"] []
    [ el "input" [] [("type", "text"); ("name", "answer")] [];
      el "div" ["varinats-block"] []
        [ el "table" [] []
            [ el "tr" ["active-distractor"] []
                [ el "td" [] []
                    [ el "input" [] [("type", "checkbox"); ("name", "test0")] [] ];
                  el "td" [] [] [ Text (u "вариант") ] ] ] ] ].

(** A block with one select element outside any table cell. *)
Definition fragment_bare_select : node :=
  el "div" ["qblock"] []
    [ el "select" [] [("name", "ans0")] [] ].

(** A block with two select elements in table cells, the first one after
    a cell that holds its letter. *)
Definition fragment_matching : node :=
  el "div" ["qblock"] []
    [ el "table" [] []
        [ el "tr" [] []
            [ el "td" [] [] [ Text (u " А ") ];
              el "td" [] [] [ el "select" [] [("name", "ans_a")] [] ] ];
          el "tr" [] []
            [ el "td" [] [] [ el "select" [] [] [] ] ] ] ].

(** What [fragment_matching] parses to. *)
Definition matching_data : answer_data :=
  mkAnswerData None
    (Some [ mkMatchingOption (u "А") (u "Вариант А") (u "ans_a");
            mkMatchingOption (u "Б") (u "Вариант Б") (u "ans1") ])
    (Some []) None.

(** A page of two blocks, the first without the guid control. *)
Definition page_two_blocks : node :=
  el "html" [] []
    [ el "div" ["qblock"] [("id", "q1")]
        [ el "span" ["canselect"] [] [ Text (u "A1B2C3") ];
          el "td" ["cell_0"] [] [ Text (u "Первый вопрос") ] ];
      el "div" ["qblock"] [("id", "q2")]
        [ el "input" [] [("type", "hidden"); ("name", "guid"); ("value", "0F0F0F0F99")] [];
          el "td" ["cell_0"] [] [ Text (u "Второй  вопрос") ] ] ].

Definition page_blocks : list tag :=
  find_all (top page_two_blocks) (u "div") (Some (u "qblock")) [].

Definition first_block : tag := default (top page_two_blocks) (page_blocks !! 0%nat).

Definition second_block : tag := default (top page_two_blocks) (page_blocks !! 1%nat).

Definition sample_parser : parser :=
  mkParser PhysicsParser (checker_config physics_checker).

(** The option a select element gives, in the words of the specification:
    none outside a table cell; otherwise the name attribute or
    [ans<index>], the cleaned text of the nearest cell before the
    select's cell or the index-th letter from А, and the label made of
    the letter. *)
Definition spec_matching_option (idx_select : nat * tag) : option MatchingOption :=
  let '(idx, select) := idx_select in
  match find_parent select (u "td") with
  | None => None
  | Some cell =>
    let letter :=
      match find_previous_sibling cell (u "td") with
      | Some before => _clean_text (get_text before)
      | None => default_letter idx
      end in
    Some (mkMatchingOption letter (u "Вариант " ++ letter)
            (get select (u "name") (u "ans" ++ str_of_int (Z.of_nat idx))))
  end.

(** * Further code of the package *)

(** ** Patterns *)

Module Regex.

(** The class [\d] on [str]: the decimal digits (category Nd) of Unicode
    14.0, the table of CPython 3.11, as ranges. *)
Definition decimal_ranges : list (N * N) :=
  [ (48, 57); (1632, 1641); (1776, 1785); (1984, 1993); (2406, 2415);
    (2534, 2543); (2662, 2671); (2790, 2799); (2918, 2927); (3046, 3055);
    (3174, 3183); (3302, 3311); (3430, 3439); (3558, 3567); (3664, 3673);
    (3792, 3801); (3872, 3881); (4160, 4169); (4240, 4249); (6112, 6121);
    (6160, 6169); (6470, 6479); (6608, 6617); (6784, 6793); (6800, 6809);
    (6992, 7001); (7088, 7097); (7232, 7241); (7248, 7257); (42528, 42537);
    (43216, 43225); (43264, 43273); (43472, 43481); (43504, 43513);
    (43600, 43609); (44016, 44025); (65296, 65305); (66720, 66729);
    (68912, 68921); (69734, 69743); (69872, 69881); (69942, 69951);
    (70096, 70105); (70384, 70393); (70736, 70745); (70864, 70873);
    (71248, 71257); (71360, 71369); (71472, 71481); (71904, 71913);
    (72016, 72025); (72784, 72793); (73040, 73049); (73120, 73129);
    (92768, 92777); (92864, 92873); (93008, 93017); (120782, 120831);
    (123200, 123209); (123632, 123641); (125264, 125273); (130032, 130041) ].

Definition decimal_digit (c : N) : bool :=
  existsb (fun r : N * N => (r.1 <=? c) && (c <=? r.2)) decimal_ranges.

(** The class [[а-яА-Яa-zA-Z]]. *)
Definition word_char (c : N) : bool :=
  ((1072 <=? c) && (c <=? 1103)) || ((1040 <=? c) && (c <=? 1071))
  || ((97 <=? c) && (c <=? 122)) || ((65 <=? c) && (c <=? 90)).

(** A matcher consumes a prefix and returns the rest.  The patterns below
    are matched without backtracking: in each of them a repetition or an
    option is followed by characters outside its own class, so the greedy
    choice is the only one that can succeed. *)
Definition one (f : N -> bool) (s : pystr) : option pystr :=
  match s with
  | c :: r => if f c then Some r else None
  | [] => None
  end.

Definition many1 (f : N -> bool) (s : pystr) : option pystr :=
  match take_while f s with
  | [] => None
  | _ => Some (drop_while f s)
  end.

Definition opt (p : pystr -> option pystr) (s : pystr) : option pystr :=
  match p s with
  | Some r => Some r
  | None => Some s
  end.

Definition andthen (p q : pystr -> option pystr) (s : pystr) : option pystr :=
  match p s with
  | Some r => q r
  | None => None
  end.

Definition just (c : N) (x : N) : bool := x =? c.

Definition among (l : list N) (x : N) : bool := existsb (N.eqb x) l.

(** [$]: the end of the string, or the line feed that ends it. *)
Definition at_end (s : pystr) : bool :=
  match s with
  | [] => true
  | [c] => c =? 10
  | _ => false
  end.

(** [re.match(p + '$', s)] for a matcher [p]. *)
Definition full (p : pystr -> option pystr) (s : pystr) : bool :=
  match p s with
  | Some r => at_end r
  | None => false
  end.

End Regex.

Import Regex.

(** ** [validate_answer_format] of the checkers, and [CheckResponse] *)

Module Validation.

(** [^-?\d+([.,]\d+)?] *)
Definition number : pystr -> option pystr :=
  andthen (opt (one (just 45)))
    (andthen (many1 decimal_digit)
       (opt (andthen (one (among [46; 44])) (many1 decimal_digit)))).

(** [^-?\d+/\d+] *)
Definition fraction : pystr -> option pystr :=
  andthen (opt (one (just 45)))
    (andthen (many1 decimal_digit)
       (andthen (one (just 47)) (many1 decimal_digit))).

(** [([eE][+-]?\d+)?] *)
Definition exponent : pystr -> option pystr :=
  opt (andthen (one (among [101; 69]))
         (andthen (opt (one (among [43; 45]))) (many1 decimal_digit))).

Section Validate.

Variable str_container : pyval -> pystr.

(** [MathProfChecker.validate_answer_format] *)
Definition math_validate (task : Task) (user_input : pyval) : bool :=
  if decide (task_type task = SHORT_ANSWER)
  then
    let answer_str := strip (py_str str_container user_input) in
    if full number answer_str then true
    else if full fraction answer_str then true
    else if full (many1 decimal_digit) answer_str then true
    else false
  else true.

(** [PhysicsChecker.validate_answer_format] *)
Definition physics_validate (task : Task) (user_input : pyval) : bool :=
  if decide (task_type task = SHORT_ANSWER)
  then
    let answer_str := strip (py_str str_container user_input) in
    if full (andthen number exponent) answer_str then true
    else if full (many1 word_char) answer_str then true
    else false
  else true.

(** [RussianChecker.validate_answer_format] *)
Definition russian_validate (task : Task) (user_input : pyval) : bool :=
  if decide (task_type task = SHORT_ANSWER)
  then
    let answer_str := strip (py_str str_container user_input) in
    if bool_decide (0 < length answer_str)%nat then true else false
  else true.

(** [validate_answer_format], dispatched on the checker's class; the
    default checker keeps [BaseChecker]'s. *)
Definition validate_answer_format (cls : CheckerClass) (task : Task)
    (user_input : pyval) : bool :=
  match cls with
  | DefaultChecker => true
  | MathProfChecker => math_validate task user_input
  | PhysicsChecker => physics_validate task user_input
  | RussianChecker => russian_validate task user_input
  end.

End Validate.

Global Instance CheckResult_eq_dec : EqDecision CheckResult.
Proof. solve_decision. Defined.

(** [CheckResponse.is_correct] *)
Definition is_correct (self : CheckResponse) : bool :=
  bool_decide (result_ self = CORRECT).

End Validation.

Import Validation.

(** ** [AnswerHelper.parse_matching_answer] *)

Module MatchingAnswer.

Definition letters : list pystr := [u "А"; u "Б"; u "В"; u "Г"; u "Д"].

Definition parse_matching_answer (answer_str : pystr) : dict pystr atom :=
  fold_left
    (fun result (idx_digit : nat * N) =>
       let '(idx, digit) := idx_digit in
       match letters !! idx with
       | Some letter => dict_set result letter (AStr [digit])
       | None => result
       end)
    (enumerate answer_str) [].

End MatchingAnswer.

Import MatchingAnswer.

(** ** [FileManager.get_task_directory] *)

Module Files.

(** [s.split()[0]]: the first run of characters that are not white
    space. *)
Definition first_word (s : pystr) : result pystr :=
  match take_while (fun c => negb (isspace c)) (lstrip s) with
  | [] => Raise (IndexError (u "list index out of range"))
  | word => Ok word
  end.

(** The folder named after the first topic code. *)
Definition kes_folder_of (task : Task) : result pystr :=
  match kes_codes task with
  | kes_code :: _ =>
    kes_number ← (if bool_decide (32 ∈ kes_code)
                  then first_word kes_code
                  else Ok kes_code);
    Ok (replace kes_number (u ".") (u "_"))
  | [] => Ok (u "unknown_kes")
  end.

(** [pathlib.PurePosixPath]: the root, which is empty, [/] or [//], and
    the names below it. *)
Record Path := mkPath {
  root : pystr;
  names : list pystr
}.

(** [s.split('/')] *)
Fixpoint split_slash (s : pystr) : list pystr :=
  match s with
  | [] => [[]]
  | c :: s' =>
    if c =? 47 then [] :: split_slash s'
    else match split_slash s' with
         | w :: ws => (c :: w) :: ws
         | [] => [[c]]
         end
  end.

(** [splitroot]: exactly two leading slashes are kept, any other number
    of them is one. *)
Definition splitroot (part : pystr) : pystr * pystr :=
  match part with
  | c :: _ =>
    if c =? 47
    then
      let stripped_part := drop_while (fun x => x =? 47) part in
      if decide (length part - length stripped_part = 2)%nat
      then (u "//", stripped_part)
      else (u "/", stripped_part)
    else ([], part)
  | [] => ([], part)
  end.

(** [Path(s)]: empty names and [.] are dropped. *)
Definition parse_path (s : pystr) : Path :=
  let '(root, rel) := splitroot s in
  mkPath root
    (List.filter (fun x => negb (bool_decide (x = []))
                           && negb (bool_decide (x = u ".")))
                 (split_slash rel)).

(** [p / s]: a rooted [s] replaces [p]. *)
Definition joinpath (p : Path) (s : pystr) : Path :=
  let q := parse_path s in
  if bool_decide (root q = []) then mkPath (root p) (names p ++ names q)
  else q.

(** [FileManager.get_task_directory], with [self.base_dir = Path(base_dir)]
    of the constructor. *)
Definition get_task_directory (base_dir : pystr) (task : Task)
  : result Path :=
  let subject_dir := joinpath (parse_path base_dir) (subject task) in
  kes_dir ← (kes_folder ← kes_folder_of task;
             Ok (joinpath subject_dir kes_folder));
  Ok (joinpath kes_dir (guid task)).

End Files.

Import Files.

(** ** [BaseParser.parse_multiple_pages] *)

Module Pages.

Section Run.

(** [parse_and_save] for a page: the records it saves.  What the portal
    holds for a page does not change during a run. *)
Variable parse_and_save : Z -> list Task.

(** The loop over [range(start_page, start_page + num_pages)], with the
    pages requested so far and the records gathered so far. *)
Fixpoint pages_loop (page : Z) (remaining : nat) (requested : list Z)
    (all_tasks : list Task) : list Z * list Task :=
  match remaining with
  | O => (requested, all_tasks)
  | S left' =>
    let tasks := parse_and_save page in
    let requested := requested ++ [page] in
    let all_tasks := all_tasks ++ tasks in
    match tasks with
    | [] => (requested, all_tasks)
    | _ :: _ => pages_loop (page + 1) left' requested all_tasks
    end
  end.

Definition parse_multiple_pages (start_page num_pages : Z)
  : list Z * list Task :=
  pages_loop start_page (Z.to_nat num_pages) [] [].

End Run.

End Pages.

Import Pages.

(** ** [PhysicsParser._classify_unit] *)

Module Units.

(** The table of [_classify_unit], in the order it is written. *)
Definition unit_types : dict pystr (list pystr) :=
  [ (u "length", [u "м"; u "см"; u "км"; u "мм"]);
    (u "velocity", [u "м/с"; u "км/ч"]);
    (u "acceleration", [u "м/с²"; u "м/с2"]);
    (u "force", [u "Н"; u "кН"]);
    (u "energy", [u "Дж"; u "кДж"; u "МДж"; u "эВ"; u "кэВ"; u "МэВ"]);
    (u "power", [u "Вт"; u "кВт"; u "МВт"]);
    (u "mass", [u "кг"; u "г"; u "т"]);
    (u "time", [u "с"; u "мс"; u "мин"; u "ч"]);
    (u "temperature", [u "°C"; u "K"; u "К"]);
    (u "angle", [u "°"; u "рад"]) ].

(** The loop over the table's items: the first type whose list holds the
    unit. *)
Fixpoint first_type (items : dict pystr (list pystr)) (unit : pystr)
  : pystr :=
  match items with
  | [] => u "other"
  | (type_name, units) :: items' =>
    if bool_decide (unit ∈ units) then type_name
    else first_type items' unit
  end.

Definition _classify_unit (unit : pystr) : pystr :=
  first_type unit_types unit.

End Units.

Import Units.

(** ** [Task.to_dict] and [Task.from_dict] *)

Module TaskDict.

(** The values of a task's dict form, and of what [from_dict] builds from
    a dict: [None], strings, integers, lists, dicts with string keys,
    members of [TaskType], and instances of the dataclasses with their
    fields in the order of declaration. *)
#[warnings="-register-all"]
Inductive jval :=
  | JNone
  | JStr (s : pystr)
  | JInt (z : Z)
  | JList (l : list jval)
  | JDict (d : list (pystr * jval))
  | JMember (t : TaskType)
  | JObject (cls : pystr) (fields : list (pystr * jval)).

(** [TaskType.<member>.value] *)
Definition type_value (t : TaskType) : pystr :=
  match t with
  | SHORT_ANSWER => u "short_answer"
  | MULTIPLE_CHOICE => u "multiple_choice"
  | MATCHING => u "matching"
  | EXTENDED_ANSWER => u "extended_answer"
  end.

(** [dataclasses.asdict] on the three small records. *)
Definition variant_dict (v : AnswerVariant) : jval :=
  JDict [ (u "index", JInt (index v)); (u "text", JStr (av_text v));
          (u "input_name", JStr (input_name v)) ].

Definition option_dict (o : MatchingOption) : jval :=
  JDict [ (u "letter", JStr (letter o)); (u "text", JStr (mo_text o));
          (u "select_name", JStr (select_name o)) ].

Definition choice_dict (c : MatchingChoice) : jval :=
  JDict [ (u "number", JStr (Models.number c)); (u "text", JStr (mc_text c)) ].

(** An optional list field. *)
Definition opt_list {A} (f : A -> jval) (o : option (list A)) : jval :=
  match o with
  | None => JNone
  | Some l => JList (f <$> l)
  end.

Definition opt_str (o : option pystr) : jval :=
  match o with
  | None => JNone
  | Some s => JStr s
  end.

(** [asdict(self)] on a task: the fields in the order of declaration. *)
Definition asdict (self : Task) : dict pystr jval :=
  [ (u "guid", JStr (guid self));
    (u "task_id", JStr (task_id self));
    (u "subject", JStr (subject self));
    (u "task_type", JMember (task_type self));
    (u "question_text", JStr (question_text self));
    (u "question_html", JStr (question_html self));
    (u "answer_variants", opt_list variant_dict (answer_variants self));
    (u "matching_options", opt_list option_dict (matching_options self));
    (u "matching_choices", opt_list choice_dict (matching_choices self));
    (u "answer_unit", opt_str (answer_unit self));
    (u "images", JList (JStr <$> images self));
    (u "kes_codes", JList (JStr <$> kes_codes self));
    (u "metadata", JDict ((fun kv => (kv.1, JStr kv.2)) <$> metadata self)) ].

(** [Task.to_dict] *)
Definition to_dict (self : Task) : dict pystr jval :=
  let data := asdict self in
  dict_set data (u "task_type") (JStr (type_value (task_type self))).

(** The parameters of the dataclass constructors: name and default. *)
Definition variant_fields : list (pystr * option jval) :=
  [ (u "index", None); (u "text", None); (u "input_name", None) ].

Definition option_fields : list (pystr * option jval) :=
  [ (u "letter", None); (u "text", None); (u "select_name", None) ].

Definition choice_fields : list (pystr * option jval) :=
  [ (u "number", None); (u "text", None) ].

Definition task_fields : list (pystr * option jval) :=
  [ (u "guid", None); (u "task_id", None); (u "subject", None);
    (u "task_type", None); (u "question_text", None);
    (u "question_html", None);
    (u "answer_variants", Some JNone); (u "matching_options", Some JNone);
    (u "matching_choices", Some JNone); (u "answer_unit", Some JNone);
    (u "images", Some (JList [])); (u "kes_codes", Some (JList []));
    (u "metadata", Some (JDict [])) ].

(** Truth value of a value. *)
Definition truthy (v : jval) : bool :=
  match v with
  | JNone | JStr [] | JInt 0 | JList [] | JDict [] => false
  | _ => true
  end.

Section FromDict.

(** The texts of the errors the interpreter raises: [repr] of a value in
    the message of [TaskType(value)], the message of a constructor called
    with a wrong set of keywords, of unpacking a value that is no mapping,
    and of a loop over a value that is not iterable. *)
Variable repr : jval -> pystr.
Variable init_error : pystr -> dict pystr jval -> pystr.
Variable call_error : pystr -> jval -> pystr.
Variable iter_error : jval -> pystr.

(** The constructor of a dataclass called with the items of [kwargs] as
    keywords: every keyword is a field, and every field without a default
    is given. *)
Definition construct (cls : pystr) (fields : list (pystr * option jval))
    (kwargs : dict pystr jval) : result jval :=
  if forallb (fun k => bool_decide (k ∈ fields.*1)) (keys kwargs)
  then
    match
      mapM (fun field : pystr * option jval =>
              match dict_get kwargs field.1 with
              | Some v => Some (field.1, v)
              | None => (fun v => (field.1, v)) <$> field.2
              end) fields
    with
    | Some values => Ok (JObject cls values)
    | None => Raise (TypeError (init_error cls kwargs))
    end
  else Raise (TypeError (init_error cls kwargs)).

(** The constructor called with an item [v] of a list unpacked as
    keywords. *)
Definition object_from (cls : pystr) (fields : list (pystr * option jval))
    (v : jval) : result jval :=
  match v with
  | JDict d => construct cls fields d
  | _ => Raise (TypeError (call_error cls v))
  end.

(** What [for v in value] goes through. *)
Definition items_of (value : jval) : result (list jval) :=
  match value with
  | JList l => Ok l
  | JStr s => Ok ((fun c => JStr [c]) <$> s)
  | JDict d => Ok (JStr <$> keys d)
  | _ => Raise (TypeError (iter_error value))
  end.

(** [if data.get(key):] replace [data[key]] by the list of the instances
    built from its items. *)
Definition objects_at (key cls : pystr) (fields : list (pystr * option jval))
    (data : dict pystr jval) : result (dict pystr jval) :=
  if truthy (default JNone (dict_get data key))
  then
    value ← dict_item data key;
    items ← items_of value;
    objects ← mapM (object_from cls fields) items;
    Ok (dict_set data key (JList objects))
  else Ok data.

(** [TaskType(value)]: the member with that value, or the member
    itself. *)
Definition TaskType_of (value : jval) : result TaskType :=
  let invalid :=
    Raise (ValueError (repr value ++ u " is not a valid TaskType")) in
  match value with
  | JStr s =>
    match list_find (fun t => type_value t = s)
            [SHORT_ANSWER; MULTIPLE_CHOICE; MATCHING; EXTENDED_ANSWER] with
    | Some (_, t) => Ok t
    | None => invalid
    end
  | JMember t => Ok t
  | _ => invalid
  end.

(** [Task.from_dict] *)
Definition from_dict (data : dict pystr jval) : result jval :=
  value ← dict_item data (u "task_type");
  member ← TaskType_of value;
  let data := dict_set data (u "task_type") (JMember member) in
  data ← objects_at (u "answer_variants") (u "AnswerVariant")
           variant_fields data;
  data ← objects_at (u "matching_options") (u "MatchingOption")
           option_fields data;
  data ← objects_at (u "matching_choices") (u "MatchingChoice")
           choice_fields data;
  construct (u "Task") task_fields data.

End FromDict.

End TaskDict.

Import TaskDict.

(** ** Auxiliary definitions for the further properties *)

(** A string that does not start with white space. *)
Definition starts_clean (s : pystr) : Prop :=
  match s with
  | [] => True
  | c :: _ => isspace c = false
  end.

(** A matcher that only consumes characters of the class [ok]. *)
Definition eats (ok : N -> bool) (p : pystr -> option pystr) : Prop :=
  forall s r, p s = Some r ->
    exists pre, s = pre ++ r /\ Forall (fun c => ok c = true) pre.

(** Commas turned into points. *)
Definition comma_to_point (c : N) : N := if c =? 44 then 46 else c.

(** The variant an active row gives: none without a checkbox or without a
    table cell. *)
Definition row_variant (idx_row : nat * tag) : option AnswerVariant :=
  let '(idx, row) := idx_row in
  match find row (u "input") None [(u "type", u "checkbox")] with
  | None => None
  | Some checkbox =>
    match last (find_all row (u "td") None []) with
    | None => None
    | Some text_cell =>
      Some (mkAnswerVariant (Z.of_nat idx) (_clean_text (get_text text_cell))
              (get checkbox (u "name") (u "test" ++ str_of_int (Z.of_nat idx))))
    end
  end.


(** A cell with a letter and a script, and a span with a script only. *)
Definition cell_with_script : node :=
  el "td" [] []
    [ Text (u "А"); el "script" [] [] [ Text (u "f()") ] ].

Definition span_with_script : node :=
  el "div" ["qblock"] []
    [ el "input" [] [("name", "guid"); ("value", "0F0F0F0F99")] [];
      el "span" ["canselect"] [] [ el "script" [] [] [ Text (u "x") ] ] ].

(** A block with a free-text input in a cell, and the markup of that
    cell with a unit after the input. *)
Definition fragment_unit : node :=
  el "div" ["qblock"] []
    [ el "table" [] []
        [ el "tr" [] []
            [ el "td" [] []
                [ el "input" [] [("type", "text"); ("name", "answer")] [];
                  Text (u " кг") ] ] ] ].

Definition markup_unit (n : node) : pystr :=
  u "<td><input name='answer' type='text'></input> кг</td>".

(** The instances as [from_dict] builds them. *)
Definition variant_object (v : AnswerVariant) : jval :=
  JObject (u "AnswerVariant")
    [ (u "index", JInt (index v)); (u "text", JStr (av_text v));
      (u "input_name", JStr (input_name v)) ].

Definition option_object (o : MatchingOption) : jval :=
  JObject (u "MatchingOption")
    [ (u "letter", JStr (letter o)); (u "text", JStr (mo_text o));
      (u "select_name", JStr (select_name o)) ].

Definition choice_object (c : MatchingChoice) : jval :=
  JObject (u "MatchingChoice")
    [ (u "number", JStr (Models.number c)); (u "text", JStr (mc_text c)) ].

Definition task_object (task : Task) : jval :=
  JObject (u "Task")
    [ (u "guid", JStr (guid task));
      (u "task_id", JStr (task_id task));
      (u "subject", JStr (subject task));
      (u "task_type", JMember (task_type task));
      (u "question_text", JStr (question_text task));
      (u "question_html", JStr (question_html task));
      (u "answer_variants", opt_list variant_object (answer_variants task));
      (u "matching_options", opt_list option_object (matching_options task));
      (u "matching_choices", opt_list choice_object (matching_choices task));
      (u "answer_unit", opt_str (answer_unit task));
      (u "images", JList (JStr <$> images task));
      (u "kes_codes", JList (JStr <$> kes_codes task));
      (u "metadata",
       JDict ((fun kv => (kv.1, JStr kv.2)) <$> metadata task)) ].

(** * Properties *)

(** ** The built-ins on examples *)

Example u_cyrillic : u "АБ°" = [1040; 1041; 176].
Proof. reflexivity. Qed.

Example str_of_int_negative : str_of_int (-120) = u "-120".
Proof. reflexivity. Qed.

Example strip_both_ends : strip ([9] ++ u " a b " ++ [160; 10]) = u "a b".
Proof. reflexivity. Qed.

Example replace_entity :
  replace (u "a&nbsp;b&nbsp;") (u "&nbsp;") (u " ") = u "a b ".
Proof. reflexivity. Qed.

Example sorted_letters :
  sorted [u "Б"; u "А"; u "АБ"] = [u "А"; u "АБ"; u "Б"].
Proof. reflexivity. Qed.

Example clean_text_runs :
  _clean_text (u "  1)" ++ [10; 9] ++ u "  ток ") = u "1) ток".
Proof. reflexivity. Qed.

Example search_unit_after_input :
  search_unit (u "<p><input name='answer'></input>  м/с</p>") = Some (u "м").
Proof. reflexivity. Qed.

Example indices_to_binary_string_scenario :
  AnswerHelper.indices_to_binary_string [0; 2; 9]%Z 5 = u "10100"
  /\ AnswerHelper.binary_string_to_indices (u "10100") = [0; 2]%Z.
Proof. split; reflexivity. Qed.

Example format_matching_answer_unordered :
  AnswerHelper.format_matching_answer
    [(u "Б", AStr (u "4")); (u "А", AInt 2)] = Ok (u "24").
Proof. reflexivity. Qed.

Example registries_after_import :
  dict_get _PARSERS (u "math_prof") = Some MathProfParser
  /\ dict_get _CHECKERS (u "russian") = Some RussianChecker
  /\ dict_get _PARSERS (u "chemistry") = None.
Proof. repeat split. Qed.

(** ** Strings and loops *)

Lemma join_empty_concat (l : list pystr) : join [] l = concat l.
Proof.
  induction l as [|x [|y l] IH]; simpl in *.
  - done.
  - by rewrite app_nil_r.
  - by rewrite IH.
Qed.

Lemma concat_singletons (s : pystr) : concat (map (fun c => [c]) s) = s.
Proof. induction s as [|c s IH]; simpl; by f_equal. Qed.

Lemma enumerate_from_lookup {A} (l : list A) (k j : nat) (x : A) :
  (j, x) ∈ enumerate_from k l <-> (k <= j)%nat /\ l !! (j - k)%nat = Some x.
Proof.
  revert k. induction l as [|y l IH]; intros k; simpl.
  - rewrite elem_of_nil. split; [done|]. by intros [_ ?].
  - rewrite elem_of_cons, IH. split.
    + intros [Heq|[Hk Hl]].
      * inversion Heq; subst. split; [lia|]. by rewrite Nat.sub_diag.
      * split; [lia|]. by replace (j - k)%nat with (S (j - S k)) by lia.
    + intros [Hk Hl]. destruct (decide (j = k)) as [->|Hne].
      * left. rewrite Nat.sub_diag in Hl. by simplify_eq/=.
      * right. split; [lia|].
        by replace (j - k)%nat with (S (j - S k)) in Hl by lia.
Qed.

Lemma set_bit_length total bits idx :
  length (set_bit total bits idx) = length bits.
Proof. unfold set_bit. case_match; by rewrite ?length_insert. Qed.

Lemma set_bit_lookup total bits idx (i : nat) :
  length bits = Z.to_nat total ->
  set_bit total bits idx !! i
  = if bool_decide (Z.of_nat i = idx /\ (i < length bits)%nat)
    then Some (u "1") else bits !! i.
Proof.
  intros Hlen. unfold set_bit.
  destruct (bool_decide (0 <= idx)%Z && bool_decide (idx < total)%Z) eqn:Hin.
  - apply andb_true_iff in Hin as [H0 H1].
    apply bool_decide_eq_true in H0, H1.
    destruct (decide (Z.to_nat idx = i)) as [<-|Hne].
    + rewrite list_lookup_insert_eq by lia.
      rewrite bool_decide_eq_true_2; [done|]. split; lia.
    + rewrite list_lookup_insert_ne by done.
      rewrite bool_decide_eq_false_2; [done|]. intros [? ?]. lia.
  - rewrite bool_decide_eq_false_2; [done|]. intros [<- Hi].
    apply andb_false_iff in Hin as [H|H]; apply bool_decide_eq_false in H; lia.
Qed.

Lemma set_bits_length total idxs bits :
  length (fold_left (set_bit total) idxs bits) = length bits.
Proof.
  revert bits. induction idxs as [|a idxs IH]; intros bits; simpl; [done|].
  by rewrite IH, set_bit_length.
Qed.

Lemma set_bits_lookup total idxs bits (i : nat) :
  length bits = Z.to_nat total ->
  fold_left (set_bit total) idxs bits !! i
  = if bool_decide (Z.of_nat i ∈ idxs /\ (i < length bits)%nat)
    then Some (u "1") else bits !! i.
Proof.
  revert bits. induction idxs as [|a idxs IH]; intros bits Hlen; cbn [fold_left].
  - case_bool_decide as H; [|done]. destruct H as [H _]. by apply elem_of_nil in H.
  - rewrite IH by (by rewrite set_bit_length).
    rewrite set_bit_length, set_bit_lookup by done.
    repeat case_bool_decide; try done; exfalso;
      rewrite ?elem_of_cons in *; tauto.
Qed.

Lemma set_bits_zeros total idxs :
  join [] (fold_left (set_bit total) idxs (replicate (Z.to_nat total) (u "0")))
  = bit_at idxs <$> seq 0 (Z.to_nat total).
Proof.
  rewrite join_empty_concat, <- (concat_singletons (_ <$> _)).
  f_equal. apply list_eq. intros i.
  rewrite set_bits_lookup by (by rewrite length_replicate).
  rewrite length_replicate, !list_lookup_fmap.
  destruct (decide (i < Z.to_nat total)%nat) as [Hi|Hi].
  - rewrite lookup_seq_lt by done. rewrite lookup_replicate_2 by done. simpl.
    unfold bit_at. repeat case_bool_decide; tauto.
  - rewrite lookup_seq_ge by lia. simpl.
    rewrite bool_decide_eq_false_2 by tauto.
    apply lookup_replicate_None. lia.
Qed.

Lemma for_loop_ints total (idxs : list Z) (bits : list pystr) :
  for_loop
    (fun answer_bits idx =>
       match idx with
       | AInt idx =>
         Ok (if bool_decide (0 <= idx)%Z && bool_decide (idx < total)%Z
             then <[Z.to_nat idx := u "1"]> answer_bits
             else answer_bits)
       | AStr _ => Raise le_int_str
       end)
    (map AInt idxs) bits
  = Ok (fold_left (set_bit total) idxs bits).
Proof.
  revert bits. induction idxs as [|a idxs IH]; intros bits; [done|].
  cbn [map for_loop fold_left]. unfold mbind at 1; simpl. by rewrite IH.
Qed.

Lemma bit_at_nil (i : nat) : bit_at [] i = 48.
Proof. unfold bit_at. case_bool_decide as H; [|done]. by apply elem_of_nil in H. Qed.

Lemma bit_at_full (n i : nat) :
  (i < n)%nat -> bit_at (map Z.of_nat (seq 0 n)) i = 49.
Proof.
  intros Hi. unfold bit_at. rewrite bool_decide_eq_true_2; [done|].
  apply list_elem_of_fmap. exists i. split; [done|].
  apply elem_of_seq. lia.
Qed.

Lemma map_const_seq {A} (f : nat -> A) (x : A) (n : nat) :
  (forall i, (i < n)%nat -> f i = x) -> f <$> seq 0 n = replicate n x.
Proof.
  intros Hf. apply list_eq. intros i. rewrite list_lookup_fmap.
  destruct (decide (i < n)%nat) as [Hi|Hi].
  - rewrite lookup_seq_lt, lookup_replicate_2 by done. simpl. by rewrite Hf.
  - rewrite lookup_seq_ge by lia. symmetry. apply lookup_replicate_None. lia.
Qed.

Lemma format_multiple_choice_ints (task : Task) (idxs : list Z) :
  _format_multiple_choice task (VList (map AInt idxs))
  = Ok (bit_at idxs <$> seq 0 (width_of task))
  /\ _format_multiple_choice task (VTuple (map AInt idxs))
    = Ok (bit_at idxs <$> seq 0 (width_of task)).
Proof.
  unfold _format_multiple_choice, width_of.
  set (num := match answer_variants task with
              | Some ((_ :: _) as variants) => Z.of_nat (length variants)
              | _ => 5%Z
              end).
  assert (Hnum : Z.to_nat num
                 = match answer_variants task with
                   | Some ((_ :: _) as variants) => length variants
                   | _ => 5%nat
                   end).
  { subst num. destruct (answer_variants task) as [[|v vs]|]; try done.
    by rewrite Nat2Z.id. }
  rewrite <- Hnum.
  split; unfold mbind; simpl; rewrite for_loop_ints; simpl;
    by rewrite set_bits_zeros.
Qed.

Lemma format_answer_multiple_choice sc cls task v :
  task_type task = MULTIPLE_CHOICE ->
  format_answer sc cls task v = _format_multiple_choice task v.
Proof.
  intros Ht. unfold format_answer, default_format_answer. rewrite Ht.
  destruct cls; try done; by case_decide.
Qed.

Lemma binary_string_to_indices_elem (s : pystr) (i : nat) :
  Z.of_nat i ∈ AnswerHelper.binary_string_to_indices s <-> s !! i = Some 49.
Proof.
  unfold AnswerHelper.binary_string_to_indices. rewrite list_elem_of_fmap. split.
  - intros [[j c] [Hj Hin]]. apply list_elem_of_filter in Hin as [Hc Hin].
    simpl in *. apply Nat2Z.inj in Hj. subst.
    apply enumerate_from_lookup in Hin as [_ Hl].
    by rewrite Nat.sub_0_r in Hl.
  - intros Hl. exists (i, 49). split; [done|].
    apply list_elem_of_filter. split; [done|].
    apply enumerate_from_lookup. split; [lia|]. by rewrite Nat.sub_0_r.
Qed.

(** ** Loops that collect *)

Lemma fold_left_collect {A B} (step : list B -> A -> list B) (f : A -> option B) :
  (forall acc x, step acc x = acc ++ option_list (f x)) ->
  forall l acc, fold_left step l acc = acc ++ omap f l.
Proof.
  intros Hstep l. induction l as [|x l IH]; intros acc; simpl.
  - by rewrite app_nil_r.
  - rewrite IH, Hstep, <- app_assoc. f_equal. by destruct (f x).
Qed.

Lemma matching_options_of_spec (block : tag) :
  matching_options_of block
  = omap spec_matching_option (enumerate (find_all block (u "select") None [])).
Proof.
  unfold matching_options_of.
  rewrite (fold_left_collect _ spec_matching_option); [done|].
  intros acc [idx select]. unfold spec_matching_option.
  destruct (find_parent select (u "td")); simpl; [done|by rewrite app_nil_r].
Qed.

Lemma enumerate_from_length {A} (k : nat) (l : list A) :
  length (enumerate_from k l) = length l.
Proof. revert k. induction l; intros k; simpl; by rewrite ?IHl. Qed.

Lemma enumerate_from_lookup_Some {A} (k i : nat) (l : list A) (x : A) :
  l !! i = Some x -> enumerate_from k l !! i = Some ((k + i)%nat, x).
Proof.
  revert k i. induction l as [|y l IH]; intros k [|i] Hl; simplify_eq/=.
  - by rewrite Nat.add_0_r.
  - rewrite (IH (S k) i) by done. do 2 f_equal. lia.
Qed.

Lemma omap_all_Some {A B} (f : A -> option B) (l : list A) :
  (forall x, x ∈ l -> is_Some (f x)) ->
  length (omap f l) = length l
  /\ forall i x, l !! i = Some x -> omap f l !! i = f x.
Proof.
  induction l as [|y l IH]; intros Hf; [done|].
  destruct (Hf y) as [b Hb]; [by left|].
  destruct IH as [IHlen IHlook]; [intros x Hx; apply Hf; by right|].
  csimpl. rewrite Hb. csimpl. split; [by rewrite IHlen|].
  intros [|i] x Hx; simplify_eq/=; [done|by apply IHlook].
Qed.

(** ** The grading code *)

(** C1. [_parse_result_code] maps the codes 1 and 3 to Correct, 2 to
    Incorrect and every other string, 0 among them, to Error; no code is
    mapped to PartiallyCorrect. *)
Theorem parse_result_code_table (code : pystr) :
  (code = u "1" \/ code = u "3" -> _parse_result_code code = CORRECT)
  /\ (code = u "2" -> _parse_result_code code = INCORRECT)
  /\ (code <> u "1" -> code <> u "2" -> code <> u "3" ->
      _parse_result_code code = ERROR)
  /\ _parse_result_code (u "0") = ERROR
  /\ _parse_result_code code <> PARTIALLY_CORRECT.
Proof.
  assert (Hcases :
    _parse_result_code code
    = if decide (u "1" = code) then CORRECT
      else if decide (u "3" = code) then CORRECT
      else if decide (u "2" = code) then INCORRECT
      else ERROR).
  { unfold _parse_result_code, code_map. cbn [dict_get].
    repeat case_decide; done. }
  repeat split.
  - intros [-> | ->]; reflexivity.
  - intros ->; reflexivity.
  - intros H1 H2 H3. rewrite Hcases. repeat case_decide; congruence.
  - rewrite Hcases. repeat case_decide; discriminate.
Qed.

Lemma parse_result_code_table_witness :
  _parse_result_code (u "3") = CORRECT
  /\ _parse_result_code (u "2") = INCORRECT
  /\ _parse_result_code (u "12") = ERROR.
Proof.
  split; [|split].
  - apply (proj1 (parse_result_code_table (u "3"))). right; reflexivity.
  - apply (proj1 (proj2 (parse_result_code_table (u "2")))). reflexivity.
  - apply (proj1 (proj2 (proj2 (parse_result_code_table (u "12")))));
      discriminate.
Defined.

(** ** Binary strings *)

(** C9. For a string of the characters 0 and 1, the positions of its ones,
    turned back into a binary string of the same length, give the string
    again. *)
Theorem binary_string_roundtrip (s : pystr) :
  Forall (fun c => c = 48 \/ c = 49) s ->
  AnswerHelper.indices_to_binary_string
    (AnswerHelper.binary_string_to_indices s) (Z.of_nat (length s)) = s.
Proof.
  intros Hs. unfold AnswerHelper.indices_to_binary_string.
  change (fold_left _ ?l ?b) with (fold_left (set_bit (Z.of_nat (length s))) l b).
  rewrite set_bits_zeros, Nat2Z.id.
  apply list_eq. intros i. rewrite list_lookup_fmap.
  destruct (s !! i) as [c|] eqn:Hc.
  - rewrite lookup_seq_lt by (by eapply lookup_lt_Some). simpl. f_equal.
    unfold bit_at. rewrite Forall_forall in Hs.
    destruct (Hs c) as [-> | ->]; [by eapply list_elem_of_lookup_2| |].
    + rewrite bool_decide_eq_false_2; [done|].
      rewrite binary_string_to_indices_elem. congruence.
    + rewrite bool_decide_eq_true_2; [done|].
      by rewrite binary_string_to_indices_elem.
  - rewrite lookup_seq_ge; [done|]. by apply lookup_ge_None.
Qed.

Lemma binary_string_roundtrip_witness :
  AnswerHelper.indices_to_binary_string
    (AnswerHelper.binary_string_to_indices (u "10100"))
    (Z.of_nat (length (u "10100"))) = u "10100".
Proof.
  apply (binary_string_roundtrip (u "10100")).
  repeat constructor; (by left) || (by right).
Defined.

(** ** Multiple-choice rows *)

Lemma bind_Ok {A B} (f : A -> result B) (a : A) : Ok a ≫= f = f a.
Proof. reflexivity. Qed.

Lemma parse_multiple_choice_Ok (block : tag) :
  (forall row,
     row ∈ find_all block (u "tr") (Some (u "active-distractor")) [] ->
     is_Some (find row (u "input") None [(u "type", u "checkbox")]) ->
     find_all row (u "td") None [] <> []) ->
  exists variants,
    _parse_multiple_choice block
    = Ok (MULTIPLE_CHOICE, mkAnswerData (Some variants) None None None).
Proof.
  unfold _parse_multiple_choice, enumerate.
  generalize (find_all block (u "tr") (Some (u "active-distractor")) []).
  intros rows Hrows.
  match goal with
  | |- context [for_loop ?body _ _] => set (step := body)
  end.
  assert (Hloop : forall k acc, exists variants,
            for_loop step (enumerate_from k rows) acc = Ok variants).
  { induction rows as [|row rows IH]; intros k acc; [by eexists|].
    cbn [enumerate_from for_loop].
    assert (Hstep : exists acc', step acc (k, row) = Ok acc').
    { unfold step.
      destruct (find row (u "input") None [(u "type", u "checkbox")])
        as [checkbox|] eqn:Hbox; [|by eexists].
      unfold last_item.
      destruct (last (find_all row (u "td") None [])) as [cell|] eqn:Hlast;
        [by eexists|].
      exfalso. apply (Hrows row); [by left|by eexists|]. by apply last_None. }
    destruct Hstep as [acc' ->]. rewrite bind_Ok.
    apply IH. intros r Hr. apply Hrows. by right. }
  destruct (Hloop 0%nat []) as [variants ->]. by exists variants.
Qed.

Lemma parse_multiple_choice_no_checkbox (block : tag) :
  (forall row,
     row ∈ find_all block (u "tr") (Some (u "active-distractor")) [] ->
     find row (u "input") None [(u "type", u "checkbox")] = None) ->
  _parse_multiple_choice block
  = Ok (MULTIPLE_CHOICE, mkAnswerData (Some []) None None None).
Proof.
  unfold _parse_multiple_choice, enumerate.
  generalize (find_all block (u "tr") (Some (u "active-distractor")) []).
  intros rows Hrows.
  match goal with
  | |- context [for_loop ?body _ _] => set (step := body)
  end.
  assert (Hloop : forall k acc,
            for_loop step (enumerate_from k rows) acc = Ok acc).
  { induction rows as [|row rows IH]; intros k acc; [done|].
    cbn [enumerate_from for_loop].
    assert (Hstep : step acc (k, row) = Ok acc).
    { unfold step. by rewrite (Hrows row) by left. }
    rewrite Hstep, bind_Ok.
    apply IH. intros r Hr. apply Hrows. by right. }
  by rewrite Hloop.
Qed.

(** ** Multiple choice *)

Lemma width_of_cases (task : Task) :
  (forall variants, answer_variants task = Some variants -> variants <> [] ->
     width_of task = length variants)
  /\ (answer_variants task = None \/ answer_variants task = Some [] ->
      width_of task = 5%nat).
Proof.
  unfold width_of. split.
  - intros variants -> Hne. destruct variants; [by destruct Hne|done].
  - by intros [-> | ->].
Qed.

(** C3, as the code has it.  For a MultiSelect record and a sequence of
    integer indices, every checker's [format_answer] gives a string of the
    characters 0 and 1 whose width is the number of options when the
    option list is present and not empty, and 5 when it is absent or
    empty; position [i] holds 1 exactly when [i] is among the indices, so
    negative and too large indices are dropped.  With [n >= 1] options the
    indices [0 .. n-1] give [n] ones and no index gives [n] zeros.  A string
    input is returned as it is. *)
Theorem format_multiple_choice_bits (sc : pyval -> pystr) (cls : CheckerClass)
    (task : Task) (idxs : list Z) :
  task_type task = MULTIPLE_CHOICE ->
  let out := bit_at idxs <$> seq 0 (width_of task) in
  format_answer sc cls task (VList (map AInt idxs)) = Ok out
  /\ format_answer sc cls task (VTuple (map AInt idxs)) = Ok out
  /\ length out = width_of task
  /\ (forall i : nat, (i < width_of task)%nat ->
        out !! i = Some (if bool_decide (Z.of_nat i ∈ idxs) then 49 else 48))
  /\ (forall variants, answer_variants task = Some variants -> variants <> [] ->
        width_of task = length variants
        /\ format_answer sc cls task
             (VList (map AInt (map Z.of_nat (seq 0 (length variants)))))
           = Ok (replicate (length variants) 49)
        /\ format_answer sc cls task (VList [])
           = Ok (replicate (length variants) 48))
  /\ (answer_variants task = None \/ answer_variants task = Some [] ->
        width_of task = 5%nat)
  /\ (forall s, format_answer sc cls task (VStr s) = Ok s).
Proof.
  intros Ht out.
  pose proof (format_multiple_choice_ints task idxs) as [Hl Htu].
  pose proof (width_of_cases task) as [Hsome Hnone].
  rewrite !format_answer_multiple_choice by done.
  split; [done|]. split; [done|].
  split; [by subst out; rewrite length_fmap, length_seq|].
  split.
  { intros i Hi. subst out. rewrite list_lookup_fmap, lookup_seq_lt by done.
    reflexivity. }
  split.
  { intros variants Hv Hne. split; [by apply Hsome|].
    rewrite !format_answer_multiple_choice by done.
    pose proof (format_multiple_choice_ints task
                  (map Z.of_nat (seq 0 (length variants)))) as [-> _].
    pose proof (format_multiple_choice_ints task []) as [Hnil _].
    change (map AInt []) with (@nil atom) in Hnil.
    rewrite Hnil, (Hsome variants) by done.
    split; f_equal; apply map_const_seq; intros i Hi.
    - by apply bit_at_full.
    - apply bit_at_nil. }
  split; [done|].
  intros s. by rewrite format_answer_multiple_choice.
Qed.

Lemma format_multiple_choice_bits_witness :
  format_answer (fun _ => []) PhysicsChecker
    (sample_task MULTIPLE_CHOICE (Some five_variants))
    (VList [AInt 0; AInt 2; AInt 7; AInt (-1)])
  = Ok (u "10100").
Proof.
  apply (format_multiple_choice_bits (fun _ => []) PhysicsChecker
           (sample_task MULTIPLE_CHOICE (Some five_variants)) [0; 2; 7; -1]%Z).
  reflexivity.
Defined.

(** C3 as stated fails for a record whose option list is empty: it has
    [n = 0] options, yet no index gives five zeros, not none. *)
Lemma format_multiple_choice_zero_options :
  task_type (sample_task MULTIPLE_CHOICE (Some [])) = MULTIPLE_CHOICE
  /\ length (default [] (answer_variants (sample_task MULTIPLE_CHOICE (Some []))))
     = 0%nat
  /\ (forall sc cls,
        format_answer sc cls (sample_task MULTIPLE_CHOICE (Some [])) (VList [])
        = Ok (u "00000")).
Proof.
  split; [done|]. split; [done|]. intros sc cls. by destruct cls.
Qed.

(** C10.  For a MultiSelect record whose option list is present but empty,
    a sequence of integer indices is formatted at width 5: five characters
    0 or 1, a 1 exactly at the indices given among 0..4, so no index gives
    00000, never the empty string. *)
Theorem format_multiple_choice_no_options (sc : pyval -> pystr)
    (cls : CheckerClass) (task : Task) (idxs : list Z) :
  task_type task = MULTIPLE_CHOICE ->
  answer_variants task = Some [] ->
  exists out,
    format_answer sc cls task (VList (map AInt idxs)) = Ok out
    /\ format_answer sc cls task (VTuple (map AInt idxs)) = Ok out
    /\ length out = 5%nat
    /\ Forall (fun c => c = 48 \/ c = 49) out
    /\ (forall i : nat, (i < 5)%nat ->
          out !! i = Some (if bool_decide (Z.of_nat i ∈ idxs) then 49 else 48))
    /\ out <> []
    /\ format_answer sc cls task (VList []) = Ok (u "00000")
    /\ (forall block,
          (forall row,
             row ∈ find_all block (u "tr") (Some (u "active-distractor")) [] ->
             find row (u "input") None [(u "type", u "checkbox")] = None) ->
          _parse_multiple_choice block
          = Ok (MULTIPLE_CHOICE, mkAnswerData (Some []) None None None)).
Proof.
  intros Ht Hv.
  pose proof (format_multiple_choice_ints task idxs) as [Hl Htu].
  pose proof (format_multiple_choice_ints task []) as [Hnil _].
  change (map AInt []) with (@nil atom) in Hnil.
  assert (Hw : width_of task = 5%nat) by (unfold width_of; by rewrite Hv).
  rewrite Hw in Hl, Htu, Hnil.
  exists (bit_at idxs <$> seq 0 5).
  rewrite !format_answer_multiple_choice by done.
  split; [done|]. split; [done|]. split; [done|].
  split.
  { apply Forall_forall. intros c Hc. apply list_elem_of_fmap in Hc as [i [-> _]].
    unfold bit_at. case_bool_decide; auto. }
  split.
  { intros i Hi. by rewrite list_lookup_fmap, lookup_seq_lt by done. }
  split; [done|].
  split; [exact Hnil|].
  apply parse_multiple_choice_no_checkbox.
Qed.

Lemma format_multiple_choice_no_options_witness :
  exists out,
    format_answer (fun _ => []) RussianChecker
      (sample_task MULTIPLE_CHOICE (Some [])) (VList (map AInt [1; 9]%Z)) = Ok out
    /\ out = u "01000".
Proof.
  destruct (format_multiple_choice_no_options (fun _ => []) RussianChecker
              (sample_task MULTIPLE_CHOICE (Some [])) [1; 9]%Z
              eq_refl eq_refl) as [out [H _]].
  exists out. split; [exact H|]. vm_compute in H. by injection H as <-.
Defined.

(** ** Matching *)

Lemma str_ltb_irrefl (a : pystr) : str_ltb a a = false.
Proof.
  induction a as [|x a IH]; simpl; [done|]. by rewrite N.ltb_irrefl.
Qed.

Lemma str_ltb_trichotomy (a b : pystr) :
  (str_ltb a b = true /\ str_ltb b a = false)
  \/ a = b
  \/ (str_ltb b a = true /\ str_ltb a b = false).
Proof.
  revert b. induction a as [|x a IH]; intros [|y b]; simpl; auto.
  destruct (N.ltb_spec x y) as [Hxy|Hxy], (N.ltb_spec y x) as [Hyx|Hyx];
    try lia; auto.
  assert (x = y) as -> by lia.
  destruct (IH b) as [?|[->|?]]; auto.
Qed.

Lemma str_ltb_trans (a b c : pystr) :
  str_ltb a b = true -> str_ltb b c = true -> str_ltb a c = true.
Proof.
  revert b c. induction a as [|x a IH]; intros [|y b] [|z c]; simpl; try done.
  destruct (N.ltb_spec x y), (N.ltb_spec y x), (N.ltb_spec y z),
    (N.ltb_spec z y), (N.ltb_spec x z), (N.ltb_spec z x);
    try done; try lia.
  apply IH.
Qed.

Global Instance str_le_total : Total str_le.
Proof.
  intros a b. unfold str_le.
  destruct (str_ltb_trichotomy a b) as [[_ ?]|[->|[_ ?]]]; auto.
  left. apply str_ltb_irrefl.
Qed.

Global Instance str_le_antisymm : AntiSymm (=) str_le.
Proof.
  intros a b Hab Hba. unfold str_le in *.
  destruct (str_ltb_trichotomy a b) as [[? _]|[->|[? _]]]; congruence.
Qed.

Global Instance str_le_trans : Transitive str_le.
Proof.
  intros a b c Hab Hbc. unfold str_le in *.
  destruct (str_ltb c a) eqn:Hca; [|done].
  destruct (str_ltb_trichotomy a b) as [[Hlt _]|[->|[? _]]]; try congruence.
  pose proof (str_ltb_trans _ _ _ Hca Hlt). congruence.
Qed.

Lemma sorted_Sorted (l : list pystr) : Sorted str_le (sorted l).
Proof. apply Sorted_merge_sort, _. Qed.

Lemma sorted_Permutation (l : list pystr) : sorted l ≡ₚ l.
Proof. apply merge_sort_Permutation. Qed.

(** Sorting forgets the order the keys came in. *)
Lemma sorted_perm (l1 l2 : list pystr) : l1 ≡ₚ l2 -> sorted l1 = sorted l2.
Proof.
  intros Hp. apply (Sorted_unique str_le); try apply sorted_Sorted.
  by rewrite !sorted_Permutation.
Qed.

Lemma dict_get_Some {V} (d : list (pystr * V)) (k : pystr) (v : V) :
  NoDup (keys d) -> dict_get d k = Some v <-> (k, v) ∈ d.
Proof.
  induction d as [|[k' v'] d IH]; simpl; intros Hnd.
  - split; [done|]. by intros ?%elem_of_nil.
  - apply NoDup_cons in Hnd as [Hk' Hnd]. rewrite elem_of_cons.
    case_decide as Hk; subst.
    + split; [by intros [= ->]; left|]. intros [[= ->]|Hin]; [done|].
      exfalso. apply Hk'. apply list_elem_of_fmap. by exists (k, v).
    + rewrite IH by done. split; [by right|]. intros [[= -> ->]|?]; done.
Qed.

Lemma dict_get_perm {V} (d1 d2 : list (pystr * V)) (k : pystr) :
  NoDup (keys d1) -> d1 ≡ₚ d2 -> dict_get d1 k = dict_get d2 k.
Proof.
  intros Hnd Hp.
  assert (Hnd2 : NoDup (keys d2)).
  { unfold keys. by rewrite <- Hp. }
  apply option_eq. intros v. rewrite !dict_get_Some by done. by rewrite Hp.
Qed.

Lemma dict_get_key {V} (d : list (pystr * V)) (k : pystr) :
  k ∈ keys d -> is_Some (dict_get d k).
Proof.
  induction d as [|[k' v'] d IH]; simpl.
  - by intros ?%elem_of_nil.
  - intros [->|Hin]%elem_of_cons; case_decide; eauto; done.
Qed.

Lemma mapM_Ok {A B} (f : A -> result B) (g : A -> B) (l : list A) :
  (forall x, x ∈ l -> f x = Ok (g x)) -> mapM f l = Ok (g <$> l).
Proof.
  induction l as [|x l IH]; intros Hf; [done|].
  cbn [mapM]. rewrite Hf by left. unfold mbind at 1; simpl.
  rewrite IH by (intros y Hy; apply Hf; by right). done.
Qed.

Lemma format_matching_dict (sc : pyval -> pystr) (d : list (pystr * atom)) :
  _format_matching sc (VDict d) = Ok (concat (chosen d <$> sorted (keys d))).
Proof.
  unfold _format_matching.
  rewrite (mapM_Ok _ (chosen d)).
  - unfold mbind; simpl. by rewrite join_empty_concat.
  - intros letter Hin. rewrite sorted_Permutation in Hin.
    apply dict_get_key in Hin as [v Hv]. unfold dict_item, chosen.
    by rewrite Hv.
Qed.

Lemma format_answer_matching sc cls task v :
  task_type task = MATCHING ->
  format_answer sc cls task v = _format_matching sc v.
Proof.
  intros Ht. unfold format_answer, default_format_answer. rewrite Ht.
  destruct cls; try done; by case_decide.
Qed.

(** C4.  For a Matching task every checker's [format_answer] turns a
    mapping from letters to numbers into the numbers' concatenation in the
    ascending order of the letters; two mappings with the same entries in
    different insertion orders are formatted alike, and both orders of
    the mapping of А to 2 and Б to 4 give 24.  A string is returned as it
    is, a list or tuple of numbers is concatenated in its own order. *)
Theorem format_matching_sorted (sc : pyval -> pystr) (cls : CheckerClass)
    (task : Task) (d1 d2 : list (pystr * atom)) :
  task_type task = MATCHING ->
  NoDup (keys d1) ->
  d1 ≡ₚ d2 ->
  format_answer sc cls task (VDict d1)
  = Ok (concat (chosen d1 <$> sorted (keys d1)))
  /\ Sorted str_le (sorted (keys d1))
  /\ sorted (keys d1) ≡ₚ keys d1
  /\ (forall letter, letter ∈ keys d1 ->
        exists v, (letter, v) ∈ d1 /\ chosen d1 letter = str_of_atom v)
  /\ format_answer sc cls task (VDict d2) = format_answer sc cls task (VDict d1)
  /\ format_answer sc cls task
       (VDict [(u "А", AStr (u "2")); (u "Б", AStr (u "4"))]) = Ok (u "24")
  /\ format_answer sc cls task
       (VDict [(u "Б", AStr (u "4")); (u "А", AStr (u "2"))]) = Ok (u "24")
  /\ (forall s, format_answer sc cls task (VStr s) = Ok s)
  /\ (forall l, format_answer sc cls task (VList l)
                = Ok (concat (str_of_atom <$> l))
                /\ format_answer sc cls task (VTuple l)
                   = Ok (concat (str_of_atom <$> l))).
Proof.
  intros Ht Hnd Hp. rewrite !format_answer_matching by done.
  rewrite !format_matching_dict.
  split; [done|].
  split; [apply sorted_Sorted|].
  split; [apply sorted_Permutation|].
  split.
  { intros letter Hin. destruct (dict_get_key d1 letter Hin) as [v Hv].
    exists v. split; [by apply dict_get_Some|].
    unfold chosen. by rewrite Hv. }
  split.
  { f_equal. rewrite (sorted_perm (keys d2) (keys d1))
      by (unfold keys; by rewrite Hp).
    f_equal. apply list_fmap_ext. intros _ letter _. unfold chosen.
    by rewrite (dict_get_perm d1 d2). }
  split; [reflexivity|]. split; [reflexivity|].
  split; [intros s; by rewrite format_answer_matching|].
  intros l. rewrite !format_answer_matching by done.
  unfold _format_matching. by rewrite join_empty_concat.
Qed.

Lemma format_matching_sorted_witness :
  format_answer (fun _ => []) DefaultChecker (sample_task MATCHING None)
    (VDict [(u "В", AInt 1); (u "А", AStr (u "2")); (u "Б", AInt 4)])
  = format_answer (fun _ => []) DefaultChecker (sample_task MATCHING None)
      (VDict [(u "Б", AInt 4); (u "В", AInt 1); (u "А", AStr (u "2"))]).
Proof.
  symmetry.
  refine (proj1 (proj2 (proj2 (proj2 (proj2
    (format_matching_sorted (fun _ => []) DefaultChecker
       (sample_task MATCHING None)
       [(u "В", AInt 1); (u "А", AStr (u "2")); (u "Б", AInt 4)]
       [(u "Б", AInt 4); (u "В", AInt 1); (u "А", AStr (u "2"))]
       eq_refl _ _)))))).
  - compute_done.
  - replace [(u "Б", AInt 4); (u "В", AInt 1); (u "А", AStr (u "2"))]
      with ([(u "Б", AInt 4)] ++ [(u "В", AInt 1); (u "А", AStr (u "2"))])
      by reflexivity.
    change [(u "В", AInt 1); (u "А", AStr (u "2")); (u "Б", AInt 4)]
      with ([(u "В", AInt 1); (u "А", AStr (u "2"))] ++ [(u "Б", AInt 4)]).
    apply Permutation_app_comm.
Defined.

(** ** Free text, mathematics and physics *)

Lemma startswith_nil (s : pystr) : startswith s [] = true.
Proof. by destruct s. Qed.

Lemma replace_char (s : pystr) (a : N) (new : pystr) :
  replace s [a] new = concat ((fun c => if c =? a then new else [c]) <$> s).
Proof.
  unfold replace. induction s as [|c s IH]; [done|].
  cbn [replace_from startswith length pred fmap list_fmap concat].
  rewrite N.eqb_sym, startswith_nil. destruct (c =? a); simpl; by rewrite IH.
Qed.

Lemma replace_char_char (s : pystr) (a b : N) :
  replace s [a] [b] = (fun c => if c =? a then b else c) <$> s.
Proof.
  rewrite replace_char. induction s as [|c s IH]; [done|].
  csimpl. rewrite IH. by destruct (c =? a).
Qed.

Lemma replace_char_empty (s : pystr) (a : N) :
  replace s [a] [] = filter (fun c => c <> a) s.
Proof.
  rewrite replace_char. induction s as [|c s IH]; [done|].
  csimpl. rewrite IH. rewrite filter_cons.
  destruct (N.eqb_spec c a); case_decide; done.
Qed.

Lemma numeric_form_chars (s : pystr) :
  (44 ∉ numeric_form s) /\ (32 ∉ numeric_form s).
Proof.
  unfold numeric_form. split; intros [Hne Hin]%list_elem_of_filter; [|done].
  apply list_elem_of_fmap in Hin as [c [Hc _]].
  destruct (N.eqb_spec c 44); congruence.
Qed.

(** C5, as the code has it.  For a FreeText task the mathematics and
    physics checkers take [str()] of the value, strip it, turn every comma
    into a point and remove every space character; the result holds no
    comma and no space, and the value 3,5 gives 3.5. *)
Theorem format_numeric_short_answer (sc : pyval -> pystr) (cls : CheckerClass)
    (task : Task) (v : pyval) :
  cls = MathProfChecker \/ cls = PhysicsChecker ->
  task_type task = SHORT_ANSWER ->
  format_answer sc cls task v = Ok (numeric_form (strip (py_str sc v)))
  /\ (44 ∉ numeric_form (strip (py_str sc v)))
  /\ (32 ∉ numeric_form (strip (py_str sc v)))
  /\ format_answer sc cls task (VStr (u "3,5")) = Ok (u "3.5").
Proof.
  intros Hcls Ht.
  assert (Hfmt : forall w,
    format_answer sc cls task w = Ok (numeric_form (strip (py_str sc w)))).
  { intros w. unfold format_answer.
    destruct Hcls as [-> | ->]; (case_decide; [|done]);
      unfold _format_math_short_answer, _format_physics_short_answer;
      cbv zeta; change (u ",") with [44]; change (u ".") with [46];
      change (u " ") with [32];
      by rewrite replace_char_char, replace_char_empty. }
  split; [apply Hfmt|].
  split; [apply numeric_form_chars|].
  split; [apply numeric_form_chars|].
  rewrite Hfmt. reflexivity.
Qed.

Lemma format_numeric_short_answer_witness :
  format_answer (fun _ => []) PhysicsChecker (sample_task SHORT_ANSWER None)
    (VStr (u " 1 234,50 "))
  = Ok (u "1234.50").
Proof.
  refine (eq_trans (proj1 (format_numeric_short_answer (fun _ => [])
            PhysicsChecker (sample_task SHORT_ANSWER None)
            (VStr (u " 1 234,50 ")) _ _)) _).
  - right; reflexivity.
  - reflexivity.
  - reflexivity.
Defined.

(** C5 as stated fails for white space other than the space character: a
    tab inside the answer stays. *)
Lemma format_numeric_keeps_tab :
  isspace 9 = true
  /\ (forall sc,
        format_answer sc MathProfChecker (sample_task SHORT_ANSWER None)
          (VStr [49; 9; 53]) = Ok [49; 9; 53])
  /\ (forall sc,
        format_answer sc PhysicsChecker (sample_task SHORT_ANSWER None)
          (VStr [49; 9; 53]) = Ok [49; 9; 53]).
Proof. repeat split. Qed.

(** ** Subject lookup and what reaches the caller *)

Lemma get_subject_config_cases (key : pystr) :
  match dict_get SUBJECTS key with
  | Some config => get_subject_config key = Ok config /\ subject_key config = key
  | None => exists msg, get_subject_config key = Raise (ValueError msg)
  end.
Proof.
  unfold get_subject_config.
  destruct (dict_get SUBJECTS key) as [config|] eqn:Hget; [|by eexists].
  split; [done|]. unfold SUBJECTS in Hget. cbn [dict_get] in Hget.
  repeat case_decide; by simplify_eq.
Qed.

(** C8, as the code has it.  For a key that is not in [SUBJECTS],
    [get_subject_config], [get_parser] and [get_checker] raise the same
    [ValueError], whatever is registered; for a key of the table they
    return the table's configuration for that key, inside a parser or
    checker of the registered class, or of the default class when none is
    registered.  A checker made this way never lets a failure of the
    grading request through: once the answer is formatted,
    [check_answer] returns a response, with the Error result when the
    request failed. *)
Theorem subject_lookup (key : pystr) :
  (key ∉ keys SUBJECTS ->
     exists msg,
       get_subject_config key = Raise (ValueError msg)
       /\ (forall registry, get_parser registry key = Raise (ValueError msg))
       /\ (forall registry, get_checker registry key = Raise (ValueError msg)))
  /\ (forall config, (key, config) ∈ SUBJECTS ->
        get_subject_config key = Ok config
        /\ subject_key config = key
        /\ (forall registry,
              get_parser registry key
              = Ok (mkParser (default DefaultParser (dict_get registry key))
                             config))
        /\ (forall registry,
              get_checker registry key
              = Ok (mkChecker (default DefaultChecker (dict_get registry key))
                              config))
        /\ (forall sc send registry self task v answer,
              get_checker registry key = Ok self ->
              format_answer sc (checker_class self) task v = Ok answer ->
              exists response,
                check_answer sc send self task v = Ok response
                /\ user_answer response = answer
                /\ (forall message,
                      send config (guid task) answer = Failed message ->
                      result_ response = ERROR
                      /\ error response = Some message)
                /\ (forall code,
                      send config (guid task) answer = Body code ->
                      result_ response = _parse_result_code code)))
  /\ (key ∈ keys SUBJECTS <->
      key = u "physics" \/ key = u "math_prof" \/ key = u "russian").
Proof.
  pose proof (get_subject_config_cases key) as Hcases.
  assert (Hnd : NoDup (keys SUBJECTS)) by compute_done.
  split; [|split].
  - intros Hnot. destruct (dict_get SUBJECTS key) as [config|] eqn:Hget.
    { exfalso. apply Hnot. apply dict_get_Some in Hget; [|done].
      apply list_elem_of_fmap. by exists (key, config). }
    destruct Hcases as [msg Hmsg]. exists msg.
    split; [done|]. unfold get_parser, get_checker. rewrite Hmsg.
    split; reflexivity.
  - intros config Hin. apply dict_get_Some in Hin; [|done].
    rewrite Hin in Hcases. destruct Hcases as [Hcfg Hkey].
    split; [done|]. split; [done|].
    assert (Hchk : forall registry,
      get_checker registry key
      = Ok (mkChecker (default DefaultChecker (dict_get registry key)) config)).
    { intros registry. unfold get_checker. rewrite Hcfg. unfold mbind; simpl.
      by destruct (dict_get registry key). }
    split.
    { intros registry. unfold get_parser. rewrite Hcfg. unfold mbind; simpl.
      by destruct (dict_get registry key). }
    split; [done|].
    intros sc send registry self task v answer Hself Hfmt.
    rewrite Hchk in Hself. injection Hself as <-.
    unfold check_answer. rewrite Hfmt. unfold mbind; simpl.
    eexists. split; [reflexivity|].
    destruct (send config (guid task) answer) as [code|message] eqn:Hsend;
      simpl; (split; [done|]); split; intros ? [= <-]; done.
  - unfold SUBJECTS, keys. cbn [map fst].
    rewrite !elem_of_cons, elem_of_nil. tauto.
Qed.

Lemma subject_lookup_witness :
  is_Ok (get_subject_config (u "chemistry")) = false
  /\ (project_id <$> dict_get SUBJECTS (u "russian"))
     = Some (u "CA9D848CF10554A28617021C9211069B").
Proof.
  split.
  - destruct (proj1 (subject_lookup (u "chemistry"))) as [msg [-> _]];
      [compute_done|reflexivity].
  - reflexivity.
Defined.

(** C8 as stated fails: the unknown-subject error is not the only one that
    reaches the caller.  [check_answer] formats the answer before its
    [try] block, so the [TypeError] of an index list holding a string
    comes out of it, for a checker of a known subject. *)
Lemma check_answer_raises_type_error :
  get_checker _CHECKERS (u "physics") = Ok physics_checker
  /\ (forall sc send,
        check_answer sc send physics_checker
          (sample_task MULTIPLE_CHOICE (Some five_variants))
          (VList [AStr (u "0"); AStr (u "2")])
        = Raise le_int_str).
Proof. split; reflexivity. Qed.

(** ** The answer block *)

(** C2, as the code has it.  The controls are looked up in the scope of
    the answer block: the fragment's first [div] of class
    [varinats-block], or the fragment itself without one.  A text input
    named answer in the scope gives FreeText; otherwise a checkbox input
    in the scope gives MultiSelect, provided every active-distractor row
    with a checkbox has a table cell; otherwise a select element in the
    scope gives Matching; otherwise the result is FreeText with no unit
    hint and no other data. *)
Theorem parse_answer_block_order (tag_str : node -> pystr)
    (decimal_digit : N -> bool) (block : tag) :
  let scope := variants_block_of block in
  let text_input :=
    find scope (u "input") None [(u "type", u "text"); (u "name", u "answer")] in
  let checkboxes := find_all scope (u "input") None [(u "type", u "checkbox")] in
  let selects := find_all scope (u "select") None [] in
  (scope = default block (find block (u "div") (Some (u "varinats-block")) []))
  /\ (is_Some text_input ->
      exists data,
        parse_answer_block tag_str decimal_digit block = Ok (SHORT_ANSWER, data))
  /\ (text_input = None -> checkboxes <> [] ->
      (forall row,
         row ∈ find_all scope (u "tr") (Some (u "active-distractor")) [] ->
         is_Some (find row (u "input") None [(u "type", u "checkbox")]) ->
         find_all row (u "td") None [] <> []) ->
      exists variants,
        parse_answer_block tag_str decimal_digit block
        = Ok (MULTIPLE_CHOICE, mkAnswerData (Some variants) None None None))
  /\ (text_input = None -> checkboxes = [] -> selects <> [] ->
      exists options choices,
        parse_answer_block tag_str decimal_digit block
        = Ok (MATCHING, mkAnswerData None (Some options) (Some choices) None))
  /\ (text_input = None -> checkboxes = [] -> selects = [] ->
      parse_answer_block tag_str decimal_digit block = Ok (SHORT_ANSWER, no_data)
      /\ ad_answer_unit no_data = None).
Proof.
  intros scope text_input checkboxes selects.
  unfold parse_answer_block. fold scope. fold text_input checkboxes selects.
  split; [by unfold scope, variants_block_of; destruct (find block _ _ _)|].
  split; [|split; [|split]].
  - intros [t Ht]. rewrite Ht. by eexists.
  - intros -> Hbox Hrows. destruct checkboxes; [done|].
    by apply parse_multiple_choice_Ok.
  - intros -> -> Hsel. destruct selects; [done|]. by do 2 eexists.
  - by intros -> -> ->.
Qed.

Lemma parse_answer_block_order_witness :
  exists data,
    parse_answer_block (fun _ => []) (fun _ => false) (top fragment_matching)
    = Ok (MATCHING, data).
Proof.
  destruct (proj1 (proj2 (proj2 (proj2
    (parse_answer_block_order (fun _ => []) (fun _ => false)
       (top fragment_matching))))) eq_refl eq_refl)
    as [options [choices H]]; [done|].
  by eexists.
Defined.

(** C2 as stated fails when the controls lie outside the variants block:
    this fragment holds a text input named answer, and is classified
    MultiSelect on the checkbox inside its variants block. *)
Lemma parse_answer_block_scoped :
  is_Some (find (top fragment_scoped) (u "input") None
             [(u "type", u "text"); (u "name", u "answer")])
  /\ (forall tag_str decimal_digit,
        parse_answer_block tag_str decimal_digit (top fragment_scoped)
        = Ok (MULTIPLE_CHOICE,
              mkAnswerData
                (Some [mkAnswerVariant 0 (u "вариант") (u "test0")])
                None None None)).
Proof. split; [by eexists|]. intros tag_str decimal_digit. reflexivity. Qed.

(** ** Matching options *)

Lemma spec_matching_option_text (x : nat * tag) (o : MatchingOption) :
  spec_matching_option x = Some o -> mo_text o = u "Вариант " ++ letter o.
Proof.
  destruct x as [idx select]. unfold spec_matching_option.
  destruct (find_parent select (u "td")); [|done]. by intros [= <-].
Qed.

Lemma parse_answer_block_matching (tag_str : node -> pystr)
    (decimal_digit : N -> bool) (block : tag) (data : answer_data) :
  parse_answer_block tag_str decimal_digit block = Ok (MATCHING, data) ->
  ad_matching_options data = Some (matching_options_of (variants_block_of block)).
Proof.
  unfold parse_answer_block.
  destruct (find (variants_block_of block) (u "input") None
              [(u "type", u "text"); (u "name", u "answer")]); [done|].
  destruct (find_all (variants_block_of block) (u "input") None
              [(u "type", u "checkbox")]).
  - destruct (find_all (variants_block_of block) (u "select") None []);
      [done|]. by intros [= <-].
  - unfold _parse_multiple_choice.
    match goal with
    | |- context [for_loop ?body ?l ?a] => destruct (for_loop body l a)
    end; done.
Qed.

(** C7, as the code has it.  For a fragment classified as Matching, the
    left-hand options are those of the select elements of the answer
    scope that lie in a table cell, in document order; a select outside
    any cell gives no option and still counts for the index.  An option's
    field name is the select's name attribute, or [ans<index>]; its letter
    is the cleaned text of the nearest cell before the select's cell, or
    the index-th letter from А without such a cell; its label is Вариант
    followed by the letter.  When every select lies in a cell, there is
    one option per select, the [idx]-th for the [idx]-th select. *)
Theorem matching_options_spec (tag_str : node -> pystr)
    (decimal_digit : N -> bool) (block : tag) (data : answer_data) :
  parse_answer_block tag_str decimal_digit block = Ok (MATCHING, data) ->
  let selects := find_all (variants_block_of block) (u "select") None [] in
  exists options,
    ad_matching_options data = Some options
    /\ options = omap spec_matching_option (enumerate selects)
    /\ ((forall select, select ∈ selects ->
           is_Some (find_parent select (u "td"))) ->
        length options = length selects
        /\ forall idx select,
             selects !! idx = Some select ->
             options !! idx = spec_matching_option (idx, select))
    /\ (forall o, o ∈ options -> mo_text o = u "Вариант " ++ letter o)
    /\ default_letter 0 = u "А"
    /\ default_letter 1 = u "Б".
Proof.
  intros Hparse selects.
  exists (matching_options_of (variants_block_of block)).
  split; [by eapply parse_answer_block_matching|].
  rewrite matching_options_of_spec. fold selects.
  split; [done|]. split; [|split; [|done]].
  - intros Hcells.
    destruct (omap_all_Some spec_matching_option (enumerate selects))
      as [Hlen Hlook].
    { intros [idx select] Hin. apply enumerate_from_lookup in Hin as [_ Hl].
      destruct (Hcells select) as [cell Hcell];
        [by eapply list_elem_of_lookup_2|].
      unfold spec_matching_option. rewrite Hcell. by eexists. }
    split; [by rewrite Hlen; apply enumerate_from_length|].
    intros idx select Hsel. apply Hlook.
    by apply (enumerate_from_lookup_Some 0 idx selects select).
  - intros o Hin. apply list_elem_of_omap in Hin as [x [_ Hx]].
    by eapply spec_matching_option_text.
Qed.

Lemma matching_options_spec_witness :
  exists options,
    ad_matching_options matching_data = Some options
    /\ length options = 2%nat
    /\ options !! 1%nat
       = Some (mkMatchingOption (u "Б") (u "Вариант Б") (u "ans1")).
Proof.
  destruct (matching_options_spec (fun _ => []) (fun _ => false)
              (top fragment_matching) matching_data eq_refl)
    as [options [Hdata [-> _]]].
  eexists. split; [exact Hdata|]. split; reflexivity.
Defined.

(** C7 as stated fails for a select element outside any table cell: this
    fragment is classified as Matching on its one select, and has no
    left-hand option. *)
Lemma matching_options_bare_select :
  length (find_all (variants_block_of (top fragment_bare_select))
            (u "select") None []) = 1%nat
  /\ (forall tag_str decimal_digit,
        parse_answer_block tag_str decimal_digit (top fragment_bare_select)
        = Ok (MATCHING, mkAnswerData None (Some []) (Some []) None)).
Proof. split; [reflexivity|]. intros tag_str decimal_digit. reflexivity. Qed.

(** ** Blocks without an identifier *)

Lemma parse_page_omap tag_str decimal_digit images kes post self soup :
  parse_page tag_str decimal_digit images kes post self soup
  = omap (parse_task_block tag_str decimal_digit images kes post self)
         (find_all soup (u "div") (Some (u "qblock")) []).
Proof.
  unfold parse_page.
  rewrite (fold_left_collect _
             (parse_task_block tag_str decimal_digit images kes post self));
    [done|].
  intros acc block.
  destruct (parse_task_block _ _ _ _ _ _ block); simpl;
    [done|by rewrite app_nil_r].
Qed.

(** C6.  A fragment without an input control named guid has no
    identifier: [parse_task_block] returns no record for it, and the page
    gives the records of the blocks before it followed by those of the
    blocks after it. *)
Theorem parse_task_block_without_guid (tag_str : node -> pystr)
    (decimal_digit : N -> bool) (images : pystr -> list pystr)
    (kes : tag -> list pystr) (post : parser -> Task -> result Task)
    (self : parser) (block : tag) :
  find block (u "input") None [(u "name", u "guid")] = None ->
  _extract_guid block = None
  /\ parse_task_block tag_str decimal_digit images kes post self block = None
  /\ forall soup before after,
       find_all soup (u "div") (Some (u "qblock")) [] = before ++ block :: after ->
       parse_page tag_str decimal_digit images kes post self soup
       = omap (parse_task_block tag_str decimal_digit images kes post self) before
         ++ omap (parse_task_block tag_str decimal_digit images kes post self)
              after.
Proof.
  intros Hguid.
  assert (Hex : _extract_guid block = None)
    by (unfold _extract_guid; by rewrite Hguid).
  assert (Hnone :
    parse_task_block tag_str decimal_digit images kes post self block = None)
    by (unfold parse_task_block; by rewrite Hex).
  split; [done|]. split; [done|].
  intros soup before after Hblocks.
  rewrite parse_page_omap, Hblocks, omap_app. csimpl. by rewrite Hnone.
Qed.

Lemma parse_task_block_without_guid_witness :
  parse_page (fun _ => []) (fun _ => false) (fun _ => []) (fun _ => [])
    (fun _ task => Ok task) sample_parser (top page_two_blocks)
  = omap (parse_task_block (fun _ => []) (fun _ => false) (fun _ => [])
            (fun _ => []) (fun _ task => Ok task) sample_parser)
         [second_block].
Proof.
  refine (proj2 (proj2 (parse_task_block_without_guid (fun _ => [])
            (fun _ => false) (fun _ => []) (fun _ => [])
            (fun _ task => Ok task) sample_parser first_block _))
            (top page_two_blocks) [] [second_block] _);
    reflexivity.
Defined.

(** * Further properties *)

(** ** Binary strings and index lists *)

Lemma indices_to_binary_string_bits (indices : list Z) (total : Z) :
  AnswerHelper.indices_to_binary_string indices total
  = bit_at indices <$> seq 0 (Z.to_nat total).
Proof.
  unfold AnswerHelper.indices_to_binary_string.
  change (fold_left _ ?l ?b) with (fold_left (set_bit total) l b).
  apply set_bits_zeros.
Qed.

Lemma bit_at_one (idxs : list Z) (i : nat) :
  bit_at idxs i = 49 <-> Z.of_nat i ∈ idxs.
Proof. unfold bit_at. case_bool_decide; split; done. Qed.

Lemma binary_string_to_indices_from (idxs : list Z) (k n : nat) :
  (fun p : nat * N => Z.of_nat p.1)
    <$> filter (fun p : nat * N => p.2 = 49)
          (enumerate_from k (bit_at idxs <$> seq k n))
  = filter (fun i => i ∈ idxs) (Z.of_nat <$> seq k n).
Proof.
  revert k. induction n as [|n IH]; intros k; [done|].
  cbn [seq]. rewrite !fmap_cons. cbn [enumerate_from].
  rewrite !filter_cons. cbn [snd fst].
  pose proof (bit_at_one idxs k) as Hbit.
  destruct (decide (bit_at idxs k = 49)), (decide (Z.of_nat k ∈ idxs));
    try tauto.
  - rewrite fmap_cons. cbn [fst]. by rewrite IH.
  - apply IH.
Qed.

(** X1.  Decoding what [indices_to_binary_string] encoded gives the
    indices that lie in [0, total), each once and in ascending order,
    whatever the order, the repetitions and the out-of-range entries of
    the list encoded. *)
Theorem binary_string_of_indices_decoded (indices : list Z) (total : Z) :
  AnswerHelper.binary_string_to_indices
    (AnswerHelper.indices_to_binary_string indices total)
  = filter (fun i => i ∈ indices) (Z.of_nat <$> seq 0 (Z.to_nat total)).
Proof.
  rewrite indices_to_binary_string_bits.
  unfold AnswerHelper.binary_string_to_indices, enumerate.
  apply (binary_string_to_indices_from indices 0).
Qed.

(** X2.  [indices_to_binary_string] gives [total] characters (none for a
    negative [total]), each 0 or 1, and depends only on which indices
    occur in the list: two lists with the same elements are encoded
    alike. *)
Theorem indices_to_binary_string_set (idxs1 idxs2 : list Z) (total : Z) :
  (forall i, i ∈ idxs1 <-> i ∈ idxs2) ->
  AnswerHelper.indices_to_binary_string idxs1 total
  = AnswerHelper.indices_to_binary_string idxs2 total
  /\ length (AnswerHelper.indices_to_binary_string idxs1 total) = Z.to_nat total
  /\ Forall (fun c => c = 48 \/ c = 49)
       (AnswerHelper.indices_to_binary_string idxs1 total).
Proof.
  intros Hsame. rewrite !indices_to_binary_string_bits.
  split; [|split].
  - apply list_fmap_ext. intros _ i _. unfold bit_at.
    by rewrite (bool_decide_ext _ _ (Hsame (Z.of_nat i))).
  - by rewrite length_fmap, length_seq.
  - apply Forall_forall. intros c [i [-> _]]%list_elem_of_fmap.
    unfold bit_at. case_bool_decide; auto.
Qed.

Lemma indices_to_binary_string_set_witness :
  AnswerHelper.indices_to_binary_string [2; 0; 2; 9]%Z 4
  = AnswerHelper.indices_to_binary_string [0; 2; 9]%Z 4.
Proof.
  apply (indices_to_binary_string_set [2; 0; 2; 9]%Z [0; 2; 9]%Z 4).
  intros i. rewrite !elem_of_cons, !elem_of_nil. tauto.
Defined.

Lemma bits_of_binary_string (s : pystr) :
  Forall (fun c => c = 48 \/ c = 49) s ->
  bit_at (AnswerHelper.binary_string_to_indices s) <$> seq 0 (length s) = s.
Proof.
  intros Hs. apply list_eq. intros i. rewrite list_lookup_fmap.
  destruct (s !! i) as [c|] eqn:Hc.
  - rewrite lookup_seq_lt by (by eapply lookup_lt_Some). simpl. f_equal.
    unfold bit_at. rewrite Forall_forall in Hs.
    destruct (Hs c) as [-> | ->]; [by eapply list_elem_of_lookup_2| |].
    + rewrite bool_decide_eq_false_2; [done|].
      rewrite binary_string_to_indices_elem. congruence.
    + rewrite bool_decide_eq_true_2; [done|].
      by rewrite binary_string_to_indices_elem.
  - rewrite lookup_seq_ge; [done|]. by apply lookup_ge_None.
Qed.

(** X3.  For a MultiSelect record with at least one option, a binary
    string with one character per option, decoded by
    [binary_string_to_indices] and formatted by any checker, is given
    back unchanged. *)
Theorem format_multiple_choice_decoded (sc : pyval -> pystr)
    (cls : CheckerClass) (task : Task) (variants : list AnswerVariant)
    (s : pystr) :
  task_type task = MULTIPLE_CHOICE ->
  answer_variants task = Some variants ->
  variants <> [] ->
  length s = length variants ->
  Forall (fun c => c = 48 \/ c = 49) s ->
  format_answer sc cls task
    (VList (AInt <$> AnswerHelper.binary_string_to_indices s)) = Ok s.
Proof.
  intros Ht Hv Hne Hlen Hs.
  rewrite format_answer_multiple_choice by done.
  rewrite (proj1 (format_multiple_choice_ints task _)).
  rewrite (proj1 (width_of_cases task) variants) by done.
  by rewrite <- Hlen, bits_of_binary_string.
Qed.

Lemma format_multiple_choice_decoded_witness :
  format_answer (fun _ => []) MathProfChecker
    (sample_task MULTIPLE_CHOICE (Some five_variants))
    (VList (AInt <$> AnswerHelper.binary_string_to_indices (u "01101")))
  = Ok (u "01101").
Proof.
  apply (format_multiple_choice_decoded (fun _ => []) MathProfChecker
           (sample_task MULTIPLE_CHOICE (Some five_variants)) five_variants
           (u "01101")); try reflexivity; [discriminate|].
  repeat constructor; (by left) || (by right).
Defined.

(** ** Matching answers *)

Lemma parse_matching_answer_rest (k : nat) (rest : pystr)
    (acc : list (pystr * atom)) :
  (5 <= k)%nat ->
  fold_left
    (fun result (idx_digit : nat * N) =>
       let '(idx, digit) := idx_digit in
       match letters !! idx with
       | Some letter => dict_set result letter (AStr [digit])
       | None => result
       end)
    (enumerate_from k rest) acc = acc.
Proof.
  revert k acc. induction rest as [|c rest IH]; intros k acc Hk; [done|].
  cbn [enumerate_from fold_left].
  rewrite (proj2 (lookup_ge_None letters k)) by (simpl; lia).
  apply IH. lia.
Qed.

(** X4.  Formatting what [parse_matching_answer] parsed gives back the
    first five characters of the answer string, so the whole string when
    it has at most five; the checkers' Matching formatter does the same
    with the parsed mapping. *)
Theorem matching_answer_roundtrip (answer_str : pystr) :
  AnswerHelper.format_matching_answer (parse_matching_answer answer_str)
  = Ok (take 5 answer_str)
  /\ keys (parse_matching_answer answer_str)
     = take (length answer_str) letters
  /\ (forall sc cls task,
        task_type task = MATCHING ->
        format_answer sc cls task (VDict (parse_matching_answer answer_str))
        = Ok (take 5 answer_str)).
Proof.
  assert (Hparse :
    AnswerHelper.format_matching_answer (parse_matching_answer answer_str)
    = Ok (take 5 answer_str)
    /\ keys (parse_matching_answer answer_str)
       = take (length answer_str) letters).
  { unfold parse_matching_answer, enumerate.
    destruct answer_str as [|c0 [|c1 [|c2 [|c3 [|c4 rest]]]]];
      try (split; reflexivity).
    cbn [enumerate_from fold_left].
    rewrite parse_matching_answer_rest by lia.
    split; [reflexivity|].
    cbn [length]. by rewrite take_ge by (simpl; lia). }
  destruct Hparse as [Hfmt Hkeys]. split; [done|]. split; [done|].
  intros sc cls task Ht. by rewrite format_answer_matching.
Qed.

(** ** Responses *)

Lemma parse_result_code_correct (code : pystr) :
  _parse_result_code code = CORRECT <-> code = u "1" \/ code = u "3".
Proof.
  split.
  - unfold _parse_result_code, code_map. cbn [dict_get].
    repeat case_decide; subst; simpl; auto; discriminate.
  - by intros [-> | ->].
Qed.

(** X5.  Once the answer is formatted, [check_answer] returns a response,
    and the response [is_correct] exactly when the grading request came
    back with the body 1 or 3; a failed request gives a response that is
    not correct and carries the failure's message. *)
Theorem check_answer_is_correct (sc : pyval -> pystr)
    (send : SubjectConfig -> pystr -> pystr -> outcome) (self : checker)
    (task : Task) (v : pyval) (answer : pystr) :
  format_answer sc (checker_class self) task v = Ok answer ->
  exists response,
    check_answer sc send self task v = Ok response
    /\ user_answer response = answer
    /\ cr_guid response = guid task
    /\ (is_correct response = true <->
        send (checker_config self) (guid task) answer = Body (u "1")
        \/ send (checker_config self) (guid task) answer = Body (u "3"))
    /\ (forall message,
         send (checker_config self) (guid task) answer = Failed message ->
         is_correct response = false /\ error response = Some message).
Proof.
  intros Hfmt. unfold check_answer. rewrite Hfmt, bind_Ok.
  eexists. split; [reflexivity|].
  destruct (send (checker_config self) (guid task) answer)
    as [code|message]; cbn [user_answer cr_guid error].
  - split; [done|]. split; [done|]. split; [|done].
    unfold is_correct. cbn [result_]. rewrite bool_decide_eq_true.
    rewrite parse_result_code_correct.
    split; intros [H|H]; [left|right|left|right]; congruence.
  - split; [done|]. split; [done|]. split.
    + unfold is_correct. cbn [result_]. split; [done|]. intros [?|?]; done.
    + intros m [= <-]. done.
Qed.

Lemma check_answer_is_correct_witness :
  exists response,
    check_answer (fun _ => []) (fun _ _ _ => Body (u "3")) physics_checker
      (sample_task SHORT_ANSWER None) (VStr (u " 2,5 ")) = Ok response
    /\ user_answer response = u "2.5"
    /\ is_correct response = true.
Proof.
  destruct (check_answer_is_correct (fun _ => []) (fun _ _ _ => Body (u "3"))
              physics_checker (sample_task SHORT_ANSWER None)
              (VStr (u " 2,5 ")) (u "2.5") eq_refl)
    as [response [Hresp [Hans [_ [Hok _]]]]].
  exists response. split; [exact Hresp|]. split; [exact Hans|].
  apply Hok. by right.
Defined.

(** ** Registration *)

Lemma dict_get_set_eq {V} (d : list (pystr * V)) (k : pystr) (v : V) :
  dict_get (dict_set d k v) k = Some v.
Proof.
  induction d as [|[k' v'] d IH]; cbn [dict_set dict_get].
  - by case_decide.
  - destruct (decide (k' = k)) as [->|Hne]; cbn [dict_get];
      case_decide; done.
Qed.

Lemma dict_get_set_ne {V} (d : list (pystr * V)) (k k' : pystr) (v : V) :
  k' <> k -> dict_get (dict_set d k v) k' = dict_get d k'.
Proof.
  intros Hne. induction d as [|[k0 v0] d IH]; cbn [dict_set dict_get].
  - case_decide; [congruence|done].
  - destruct (decide (k0 = k)) as [->|Hk0]; cbn [dict_get].
    + case_decide; [congruence|done].
    + case_decide; [done|apply IH].
Qed.

Lemma dict_set_keys {V} (d : list (pystr * V)) (k : pystr) (v : V) :
  keys (dict_set d k v) = if decide (k ∈ keys d) then keys d else keys d ++ [k].
Proof.
  unfold keys. induction d as [|[k0 v0] d IH]; cbn [dict_set map fst].
  - case_decide as H; [by apply elem_of_nil in H|done].
  - destruct (decide (k0 = k)) as [->|Hk0]; cbn [map fst].
    + destruct (decide (k ∈ k :: map fst d)) as [H|H]; [done|].
      exfalso. apply H. by left.
    + rewrite IH. clear IH.
      destruct (decide (k ∈ map fst d)) as [Hin|Hin],
        (decide (k ∈ k0 :: map fst d)) as [H|H]; try done.
      * exfalso. apply H. by right.
      * apply elem_of_cons in H as [?|?]; [congruence|done].
Qed.

(** X6.  Registering a parser or checker class for a subject makes
    [get_parser] and [get_checker] build that class for the subject,
    replacing an earlier registration, and leaves every other subject as
    it was; for a subject outside [SUBJECTS] the lookup still raises. *)
Theorem register_then_get (parsers : list (pystr * ParserClass))
    (checkers : list (pystr * CheckerClass)) (key : pystr)
    (parser_class : ParserClass) (checker_class : CheckerClass) :
  (forall config,
     get_subject_config key = Ok config ->
     get_parser (register_parser parsers key parser_class) key
     = Ok (mkParser parser_class config)
     /\ get_checker (register_checker checkers key checker_class) key
       = Ok (mkChecker checker_class config))
  /\ (forall other,
       other <> key ->
       get_parser (register_parser parsers key parser_class) other
       = get_parser parsers other
       /\ get_checker (register_checker checkers key checker_class) other
         = get_checker checkers other)
  /\ (is_Ok (get_subject_config key) = false ->
      is_Ok (get_parser (register_parser parsers key parser_class) key) = false
      /\ is_Ok (get_checker (register_checker checkers key checker_class) key)
        = false)
  /\ keys (register_parser parsers key parser_class)
     = (if decide (key ∈ keys parsers) then keys parsers
        else keys parsers ++ [key]).
Proof.
  unfold register_parser, register_checker, get_parser, get_checker.
  split; [|split; [|split]].
  - intros config ->. rewrite !bind_Ok, !dict_get_set_eq. done.
  - intros other Hne. by rewrite !dict_get_set_ne.
  - destruct (get_subject_config key); [done|]. done.
  - apply dict_set_keys.
Qed.

Lemma register_then_get_witness :
  get_parser (register_parser _PARSERS (u "russian") DefaultParser) (u "russian")
  = Ok (mkParser DefaultParser
          (mkSubjectConfig (u "russian") (u "CA9D848CF10554A28617021C9211069B")
             (u "Русский язык") (u "https://ege.fipi.ru") 30 1%Qp)).
Proof.
  apply (register_then_get _PARSERS _CHECKERS (u "russian") DefaultParser
           DefaultChecker).
  reflexivity.
Defined.

(** ** Runs over pages *)

Lemma pages_loop_run (f : Z -> list Task) (n : nat) (page : Z)
    (requested : list Z) (all_tasks : list Task) :
  exists m : nat,
    (m <= n)%nat
    /\ pages_loop f page n requested all_tasks
       = (requested ++ ((fun i : nat => (page + Z.of_nat i)%Z) <$> seq 0 m),
          all_tasks
            ++ concat (f <$> ((fun i : nat => (page + Z.of_nat i)%Z) <$> seq 0 m)))
    /\ (forall i : nat, (S i < m)%nat -> f (page + Z.of_nat i)%Z <> [])
    /\ ((m < n)%nat ->
        (0 < m)%nat /\ f (page + Z.of_nat (m - 1))%Z = []).
Proof.
  revert page requested all_tasks.
  induction n as [|n IH]; intros page requested all_tasks.
  - exists 0%nat. simpl. rewrite !app_nil_r.
    split; [lia|]. split; [done|]. split; intros; lia.
  - cbn [pages_loop]. destruct (f page) as [|t ts] eqn:Hpage.
    + exists 1%nat. cbn [seq]. rewrite !fmap_cons, !fmap_nil.
      change (Z.of_nat 0) with 0%Z. rewrite Z.add_0_r. cbn [concat].
      rewrite Hpage, !app_nil_r.
      split; [lia|]. split; [done|]. split; [intros; lia|].
      intros _. split; [lia|]. cbn. by rewrite Z.add_0_r.
    + destruct (IH (page + 1)%Z (requested ++ [page]) (all_tasks ++ t :: ts))
        as [m [Hm [Hrun [Hfull Hstop]]]].
      exists (S m). split; [lia|]. split.
      * rewrite Hrun. cbn [seq]. rewrite <- fmap_S_seq.
        rewrite !fmap_cons. change (Z.of_nat 0) with 0%Z.
        rewrite Z.add_0_r. cbn [concat]. rewrite Hpage.
        assert (Heq : (fun i : nat => (page + Z.of_nat i)%Z) <$> (S <$> seq 0 m)
                      = (fun i : nat => (page + 1 + Z.of_nat i)%Z) <$> seq 0 m).
        { rewrite <- list_fmap_compose. apply list_fmap_ext.
          intros _ i _. simpl. lia. }
        rewrite Heq, <- !app_assoc. done.
      * split.
        -- intros [|i] Hi.
           ++ change (Z.of_nat 0) with 0%Z. rewrite Z.add_0_r, Hpage. done.
           ++ replace (page + Z.of_nat (S i))%Z with (page + 1 + Z.of_nat i)%Z
                by lia.
              apply Hfull. lia.
        -- intros Hlt. destruct Hstop as [Hpos Hempty]; [lia|].
           split; [lia|].
           replace (page + Z.of_nat (S m - 1))%Z
             with (page + 1 + Z.of_nat (m - 1))%Z by lia.
           done.
Qed.

(** X7.  [parse_multiple_pages] requests the pages [start_page],
    [start_page + 1], ... one after the other, at most [num_pages] of them
    and none for [num_pages <= 0]; it stops after the first page that
    gives no record, requests nothing past it, and returns the records of
    the requested pages in order. *)
Theorem parse_multiple_pages_run (parse_and_save : Z -> list Task)
    (start_page num_pages : Z) :
  exists m : nat,
    (m <= Z.to_nat num_pages)%nat
    /\ parse_multiple_pages parse_and_save start_page num_pages
       = ((fun i : nat => (start_page + Z.of_nat i)%Z) <$> seq 0 m,
          concat (parse_and_save
                    <$> ((fun i : nat => (start_page + Z.of_nat i)%Z) <$> seq 0 m)))
    /\ (forall i : nat,
         (S i < m)%nat -> parse_and_save (start_page + Z.of_nat i)%Z <> [])
    /\ ((m < Z.to_nat num_pages)%nat ->
        (0 < m)%nat
        /\ parse_and_save (start_page + Z.of_nat (m - 1))%Z = []).
Proof.
  unfold parse_multiple_pages.
  destruct (pages_loop_run parse_and_save (Z.to_nat num_pages) start_page [] [])
    as [m Hm].
  exists m. simpl in Hm. exact Hm.
Qed.

(** ** Trimming and collapsing *)

Lemma lstrip_fix (s : pystr) : starts_clean s -> lstrip s = s.
Proof. destruct s as [|c s]; simpl; [done|]. by intros ->. Qed.

Lemma lstrip_head (s : pystr) : starts_clean (lstrip s).
Proof.
  induction s as [|c s IH]; simpl; [done|].
  destruct (isspace c) eqn:Hc; [done|]. simpl. done.
Qed.

Lemma lstrip_suffix (s : pystr) :
  exists w, s = w ++ lstrip s /\ Forall (fun c => isspace c = true) w.
Proof.
  induction s as [|c s [w [Hw Hall]]]; simpl.
  - by exists [].
  - destruct (isspace c) eqn:Hc.
    + exists (c :: w). split; [by rewrite Hw at 1|]. by constructor.
    + by exists [].
Qed.

Lemma rstrip_snoc (s : pystr) (c : N) :
  rstrip (s ++ [c]) = if isspace c then rstrip s else s ++ [c].
Proof.
  unfold rstrip. rewrite rev_app_distr. simpl.
  destruct (isspace c); [done|]. simpl. by rewrite rev_involutive.
Qed.

Lemma rstrip_fix (s : pystr) : starts_clean (rev s) -> rstrip s = s.
Proof. intros H. unfold rstrip. by rewrite lstrip_fix, rev_involutive. Qed.

Lemma rstrip_last (s : pystr) : starts_clean (rev (rstrip s)).
Proof. unfold rstrip. rewrite rev_involutive. apply lstrip_head. Qed.

Lemma rstrip_prefix (s : pystr) :
  exists w, s = rstrip s ++ w /\ Forall (fun c => isspace c = true) w.
Proof.
  destruct (lstrip_suffix (rev s)) as [w [Hw Hall]].
  exists (rev w). split.
  - unfold rstrip. rewrite <- rev_app_distr, <- Hw. by rewrite rev_involutive.
  - apply Forall_forall. intros c Hc. rewrite Forall_forall in Hall.
    apply Hall. apply list_elem_of_In. apply in_rev.
    by apply list_elem_of_In.
Qed.

Lemma rstrip_app_spaces (s w : pystr) :
  Forall (fun c => isspace c = true) w -> rstrip (s ++ w) = rstrip s.
Proof.
  induction w as [|c w IH] using rev_ind; intros Hw.
  - by rewrite app_nil_r.
  - apply Forall_app in Hw as [Hw Hc]. rewrite Forall_singleton in Hc.
    rewrite app_assoc, rstrip_snoc, Hc. by apply IH.
Qed.

Lemma rstrip_starts (s : pystr) : starts_clean s -> starts_clean (rstrip s).
Proof.
  intros Hs. destruct (rstrip_prefix s) as [w [Hw _]].
  destruct (rstrip s) as [|c r]; [done|].
  rewrite Hw in Hs. exact Hs.
Qed.

Lemma strip_trimmed (s : pystr) :
  starts_clean (strip s) /\ starts_clean (rev (strip s)).
Proof.
  unfold strip. split; [apply rstrip_starts, lstrip_head|apply rstrip_last].
Qed.

Lemma strip_fix (s : pystr) :
  starts_clean s -> starts_clean (rev s) -> strip s = s.
Proof. intros H1 H2. unfold strip. by rewrite lstrip_fix, rstrip_fix. Qed.

Lemma strip_idempotent (s : pystr) : strip (strip s) = strip s.
Proof. apply strip_fix; apply strip_trimmed. Qed.

Lemma strip_chars (s : pystr) (c : N) : c ∈ strip s -> c ∈ s.
Proof.
  intros Hc. unfold strip in Hc.
  destruct (rstrip_prefix (lstrip s)) as [w1 [H1 _]].
  destruct (lstrip_suffix s) as [w2 [H2 _]].
  rewrite H2, H1, !elem_of_app. auto.
Qed.

Lemma sub_spaces_idempotent (b : bool) (s : pystr) :
  sub_spaces b (sub_spaces b s) = sub_spaces b s.
Proof.
  revert b. induction s as [|c s IH]; intros b; simpl; [done|].
  destruct (isspace c) eqn:Hc.
  - destruct b; simpl; [apply IH|]. by rewrite IH.
  - simpl. by rewrite Hc, IH.
Qed.

Lemma sub_spaces_lstrip (b : bool) (s : pystr) :
  lstrip (sub_spaces b s) = sub_spaces true s.
Proof.
  revert b. induction s as [|c s IH]; intros b; simpl; [done|].
  destruct (isspace c) eqn:Hc.
  - destruct b; simpl; apply IH.
  - simpl. by rewrite Hc.
Qed.

Lemma sub_spaces_skip (s : pystr) :
  sub_spaces true s = sub_spaces false (lstrip s).
Proof.
  induction s as [|c s IH]; simpl; [done|].
  destruct (isspace c) eqn:Hc; [done|]. simpl. by rewrite Hc.
Qed.

Lemma sub_spaces_snoc (b : bool) (s : pystr) (c : N) :
  isspace c = false -> sub_spaces b (s ++ [c]) = sub_spaces b s ++ [c].
Proof.
  intros Hc. revert b. induction s as [|x s IH]; intros b; simpl.
  - by rewrite Hc.
  - destruct (isspace x); [destruct b|]; by rewrite IH.
Qed.

Lemma sub_spaces_snoc_space (b : bool) (s : pystr) (c : N) :
  isspace c = true ->
  exists w, sub_spaces b (s ++ [c]) = sub_spaces b s ++ w
            /\ Forall (fun c => isspace c = true) w.
Proof.
  intros Hc. revert b. induction s as [|x s IH]; intros b; simpl.
  - rewrite Hc. destruct b; [by exists []|]. exists [32]. split; [done|].
    by constructor.
  - destruct (isspace x).
    + destruct b; destruct (IH true) as [w [-> Hw]]; by exists w.
    + destruct (IH false) as [w [-> Hw]]. by exists w.
Qed.

Lemma sub_spaces_rstrip (s : pystr) :
  rstrip (sub_spaces false s) = sub_spaces false (rstrip s).
Proof.
  induction s as [|c s IH] using rev_ind; [done|].
  rewrite rstrip_snoc. destruct (isspace c) eqn:Hc.
  - destruct (sub_spaces_snoc_space false s c Hc) as [w [-> Hw]].
    by rewrite rstrip_app_spaces.
  - rewrite sub_spaces_snoc by done. by rewrite rstrip_snoc, Hc.
Qed.

(** Trimming and collapsing commute. *)
Lemma strip_sub_spaces (s : pystr) :
  strip (sub_spaces false s) = sub_spaces false (strip s).
Proof.
  unfold strip.
  rewrite sub_spaces_lstrip, sub_spaces_skip. apply sub_spaces_rstrip.
Qed.

Lemma sub_spaces_chars (b : bool) (s : pystr) (c : N) :
  c ∈ sub_spaces b s -> c = 32 \/ (c ∈ s /\ isspace c = false).
Proof.
  revert b. induction s as [|x s IH]; intros b; simpl.
  - by intros ?%elem_of_nil.
  - destruct (isspace x) eqn:Hx.
    + destruct b.
      * intros [?|[? ?]]%IH; [by left|right]. split; [by right|done].
      * intros [->|[?|[? ?]]%IH]%elem_of_cons; [by left|by left|right].
        split; [by right|done].
    + intros [->|[?|[? ?]]%IH]%elem_of_cons.
      * right. split; [by left|done].
      * by left.
      * right. split; [by right|done].
Qed.

Lemma replace_absent (s old new : pystr) (c : N) :
  c ∉ s -> replace s (c :: old) new = s.
Proof.
  unfold replace. induction s as [|x s IH]; intros Hc; [done|].
  cbn [replace_from startswith].
  destruct (N.eqb_spec c x) as [->|Hne].
  - exfalso. apply Hc. by left.
  - cbn [andb]. rewrite IH; [done|]. intros Hin. apply Hc. by right.
Qed.

(** ** Cleaned text *)

(** X8.  On a text without an ampersand [_clean_text] is the text trimmed
    and with every run of white space turned into one space: the result
    has no white space at its ends and none but single spaces inside, its
    characters are those of the text or the space, and cleaning it again
    changes nothing. *)
Theorem clean_text_normal_form (text : pystr) :
  38 ∉ text ->
  _clean_text text = sub_spaces false (strip text)
  /\ strip (_clean_text text) = _clean_text text
  /\ sub_spaces false (_clean_text text) = _clean_text text
  /\ (forall c, c ∈ _clean_text text ->
       (isspace c = true -> c = 32) /\ (c = 32 \/ c ∈ text))
  /\ _clean_text (_clean_text text) = _clean_text text.
Proof.
  intros Hamp.
  assert (Hclean : forall t, 38 ∉ t -> _clean_text t = strip (sub_spaces false t)).
  { intros t Ht. unfold _clean_text.
    change (u "&nbsp;") with (38 :: u "nbsp;").
    apply replace_absent. intros Hin%strip_chars.
    apply sub_spaces_chars in Hin as [?|[? _]]; done. }
  assert (Hchars : forall c, c ∈ strip (sub_spaces false text) ->
            (isspace c = true -> c = 32) /\ (c = 32 \/ c ∈ text)).
  { intros c Hin%strip_chars. apply sub_spaces_chars in Hin as [->|[Hin Hc]].
    - split; auto.
    - split; [congruence|auto]. }
  rewrite (Hclean text Hamp).
  split; [apply strip_sub_spaces|].
  split; [apply strip_idempotent|].
  split; [rewrite strip_sub_spaces; apply sub_spaces_idempotent|].
  split; [exact Hchars|].
  rewrite Hclean.
  - rewrite (strip_sub_spaces text), sub_spaces_idempotent.
    by rewrite (strip_sub_spaces (strip text)), strip_idempotent.
  - intros Hin. destruct (Hchars 38 Hin) as [_ [?|?]]; done.
Qed.

Lemma clean_text_normal_form_witness :
  _clean_text (u "  3) " ++ [9; 10] ++ u "сила  тока ") = u "3) сила тока".
Proof.
  rewrite (proj1 (clean_text_normal_form
                    (u "  3) " ++ [9; 10] ++ u "сила  тока ") ltac:(compute_done))).
  reflexivity.
Defined.

(** ** Formatting twice *)

Lemma rev_head_snoc (s : pystr) (c : N) (r : pystr) :
  rev s = c :: r -> s = rev r ++ [c].
Proof.
  intros H. rewrite <- (rev_involutive s), H. reflexivity.
Qed.

Lemma numeric_form_app (a b : pystr) :
  numeric_form (a ++ b) = numeric_form a ++ numeric_form b.
Proof. unfold numeric_form. by rewrite fmap_app, filter_app. Qed.

Lemma numeric_form_single (c : N) :
  isspace c = false -> exists d, numeric_form [c] = [d] /\ isspace d = false.
Proof.
  intros Hc. unfold numeric_form. cbn [fmap list_fmap].
  rewrite filter_cons, filter_nil.
  destruct (N.eqb_spec c 44) as [->|Hne].
  - exists 46. by rewrite decide_True.
  - exists c. rewrite decide_True; [done|]. by intros ->.
Qed.

Lemma numeric_form_trimmed (t : pystr) :
  starts_clean t -> starts_clean (rev t) ->
  starts_clean (numeric_form t) /\ starts_clean (rev (numeric_form t)).
Proof.
  intros Hs He. split.
  - destruct t as [|c t]; [done|].
    change (c :: t) with ([c] ++ t). rewrite numeric_form_app.
    destruct (numeric_form_single c Hs) as [d [-> Hd]]. exact Hd.
  - destruct (rev t) as [|c r] eqn:Hrev.
    + apply (f_equal (@rev N)) in Hrev. rewrite rev_involutive in Hrev.
      by subst.
    + apply rev_head_snoc in Hrev as ->. rewrite numeric_form_app.
      destruct (numeric_form_single c He) as [d [-> Hd]].
      rewrite rev_app_distr. exact Hd.
Qed.

Lemma numeric_form_fix (s : pystr) :
  44 ∉ s -> 32 ∉ s -> numeric_form s = s.
Proof.
  unfold numeric_form. induction s as [|c s IH]; intros H44 H32; [done|].
  rewrite fmap_cons, filter_cons.
  rewrite not_elem_of_cons in H44, H32.
  destruct H44 as [Hc44 H44], H32 as [Hc32 H32].
  destruct (N.eqb_spec c 44) as [?|_]; [congruence|].
  rewrite decide_True by congruence. by rewrite IH.
Qed.

Lemma format_numeric_form (sc : pyval -> pystr) (v : pyval) :
  _format_math_short_answer sc v = numeric_form (strip (py_str sc v))
  /\ _format_physics_short_answer sc v = numeric_form (strip (py_str sc v)).
Proof.
  unfold _format_math_short_answer, _format_physics_short_answer.
  cbv zeta. change (u ",") with [44]. change (u ".") with [46].
  change (u " ") with [32].
  by rewrite replace_char_char, replace_char_empty.
Qed.

Lemma sub_spaces_trimmed (t : pystr) :
  starts_clean t -> starts_clean (rev t) ->
  starts_clean (sub_spaces false t) /\ starts_clean (rev (sub_spaces false t)).
Proof.
  intros Hs He. split.
  - destruct t as [|c t]; [done|]. simpl in *. by rewrite Hs.
  - destruct (rev t) as [|c r] eqn:Hrev.
    + apply (f_equal (@rev N)) in Hrev. rewrite rev_involutive in Hrev.
      by subst.
    + apply rev_head_snoc in Hrev as ->.
      rewrite sub_spaces_snoc by done. by rewrite rev_app_distr.
Qed.

(** X9.  Formatting is idempotent: the string a checker's [format_answer]
    gives for an answer is left unchanged when it is formatted again,
    for every checker class and every task type. *)
Theorem format_answer_idempotent (sc : pyval -> pystr) (cls : CheckerClass)
    (task : Task) (v : pyval) (out : pystr) :
  format_answer sc cls task v = Ok out ->
  format_answer sc cls task (VStr out) = Ok out.
Proof.
  assert (Hdefault : forall w o,
    default_format_answer sc task w = Ok o ->
    default_format_answer sc task (VStr o) = Ok o).
  { intros w o. unfold default_format_answer.
    destruct (task_type task); try done.
    intros [= <-]. unfold _format_short_answer. cbn [py_str].
    by rewrite strip_idempotent. }
  unfold format_answer.
  destruct cls; [apply Hdefault| | |];
    (case_decide; [|apply Hdefault]); intros [= <-]; f_equal.
  - rewrite !(proj1 (format_numeric_form sc _)). cbn [py_str].
    destruct (strip_trimmed (py_str sc v)) as [Hs He].
    destruct (numeric_form_trimmed _ Hs He) as [Hs' He'].
    rewrite strip_fix by done.
    apply numeric_form_fix; apply numeric_form_chars.
  - rewrite !(proj2 (format_numeric_form sc _)). cbn [py_str].
    destruct (strip_trimmed (py_str sc v)) as [Hs He].
    destruct (numeric_form_trimmed _ Hs He) as [Hs' He'].
    rewrite strip_fix by done.
    apply numeric_form_fix; apply numeric_form_chars.
  - unfold _format_russian_short_answer. cbn [py_str].
    destruct (strip_trimmed (py_str sc v)) as [Hs He].
    destruct (sub_spaces_trimmed _ Hs He) as [Hs' He'].
    rewrite strip_fix by done. apply sub_spaces_idempotent.
Qed.

Lemma format_answer_idempotent_witness :
  format_answer (fun _ => []) RussianChecker (sample_task SHORT_ANSWER None)
    (VStr (u "не  было")) = Ok (u "не было")
  /\ format_answer (fun _ => []) RussianChecker (sample_task SHORT_ANSWER None)
       (VStr (u "не было")) = Ok (u "не было").
Proof.
  split; [reflexivity|].
  apply (format_answer_idempotent (fun _ => []) RussianChecker
           (sample_task SHORT_ANSWER None) (VStr (u "не  было"))).
  reflexivity.
Defined.

(** X10.  For a FreeText task the Russian checker formats an answer
    without an ampersand exactly as the parser cleans text: the answer's
    [str()] trimmed, with every run of white space turned into one
    space. *)
Theorem russian_format_is_clean_text (sc : pyval -> pystr) (task : Task)
    (v : pyval) :
  task_type task = SHORT_ANSWER ->
  38 ∉ py_str sc v ->
  format_answer sc RussianChecker task v = Ok (_clean_text (py_str sc v)).
Proof.
  intros Ht Hamp. unfold format_answer. rewrite decide_True by done.
  f_equal. unfold _format_russian_short_answer.
  unfold _clean_text. change (u "&nbsp;") with (38 :: u "nbsp;").
  rewrite replace_absent.
  - symmetry. apply strip_sub_spaces.
  - intros Hin%strip_chars.
    apply sub_spaces_chars in Hin as [?|[? _]]; done.
Qed.

Lemma russian_format_is_clean_text_witness :
  format_answer (fun _ => []) RussianChecker (sample_task SHORT_ANSWER None)
    (VStr (u " а   б "))
  = Ok (_clean_text (u " а   б ")).
Proof.
  apply (russian_format_is_clean_text (fun _ => [])
           (sample_task SHORT_ANSWER None) (VStr (u " а   б "))).
  - reflexivity.
  - compute_done.
Defined.

(** ** Validation *)

Lemma take_drop_while (f : N -> bool) (s : pystr) :
  s = take_while f s ++ drop_while f s
  /\ Forall (fun c => f c = true) (take_while f s).
Proof.
  induction s as [|c s [IH1 IH2]]; simpl; [done|].
  destruct (f c) eqn:Hc; simpl; [|done].
  split; [by rewrite <- IH1|by constructor].
Qed.

Lemma eats_one (ok f : N -> bool) :
  (forall c, f c = true -> ok c = true) -> eats ok (one f).
Proof.
  intros Hf [|c s] r; simpl; [done|].
  destruct (f c) eqn:Hc; [|done]. intros [= <-].
  exists [c]. split; [done|]. constructor; auto.
Qed.

Lemma eats_many1 (ok f : N -> bool) :
  (forall c, f c = true -> ok c = true) -> eats ok (many1 f).
Proof.
  intros Hf s r. unfold many1.
  destruct (take_drop_while f s) as [Hs Hall].
  destruct (take_while f s) as [|c p] eqn:Hp; [done|]. intros [= <-].
  exists (c :: p). split; [done|].
  eapply Forall_impl; [exact Hall|]. auto.
Qed.

Lemma eats_opt (ok : N -> bool) (p : pystr -> option pystr) :
  eats ok p -> eats ok (opt p).
Proof.
  intros Hp s r. unfold opt. destruct (p s) as [r'|] eqn:Hps.
  - intros [= <-]. by apply Hp.
  - intros [= <-]. by exists [].
Qed.

Lemma eats_andthen (ok : N -> bool) (p q : pystr -> option pystr) :
  eats ok p -> eats ok q -> eats ok (andthen p q).
Proof.
  intros Hp Hq s r. unfold andthen. destruct (p s) as [m|] eqn:Hps; [|done].
  intros Hqm. destruct (Hp s m Hps) as [pre1 [-> H1]].
  destruct (Hq m r Hqm) as [pre2 [-> H2]].
  exists (pre1 ++ pre2). split; [by rewrite app_assoc|].
  by apply Forall_app.
Qed.

Lemma at_end_cases (r : pystr) : at_end r = true -> r = [] \/ r = [10].
Proof.
  destruct r as [|c [|? ?]]; simpl; try done; [by left|].
  intros ->%N.eqb_eq. by right.
Qed.

Lemma full_eats (ok : N -> bool) (p : pystr -> option pystr) (s : pystr) :
  eats ok p -> ok 10 = true -> full p s = true ->
  Forall (fun c => ok c = true) s.
Proof.
  intros Hp H10. unfold full. destruct (p s) as [r|] eqn:Hps; [|done].
  intros Hend. destruct (Hp s r Hps) as [pre [-> Hpre]].
  apply Forall_app. split; [done|].
  destruct (at_end_cases r Hend) as [-> | ->]; by repeat constructor.
Qed.

Lemma not_space_class (f : N -> bool) :
  f 32 = false -> forall c, f c = true -> negb (c =? 32) = true.
Proof.
  intros H32 c Hc. destruct (N.eqb_spec c 32) as [->|]; [congruence|done].
Qed.

Lemma numbers_eat_no_space :
  eats (fun c => negb (c =? 32)) number
  /\ eats (fun c => negb (c =? 32)) fraction
  /\ eats (fun c => negb (c =? 32)) (many1 decimal_digit)
  /\ eats (fun c => negb (c =? 32)) (andthen number exponent)
  /\ eats (fun c => negb (c =? 32)) (many1 word_char).
Proof.
  assert (Hd : eats (fun c => negb (c =? 32)) (many1 decimal_digit))
    by (by apply eats_many1, not_space_class).
  assert (Hn : eats (fun c => negb (c =? 32)) number).
  { repeat (apply eats_andthen || apply eats_opt); try done;
      by apply eats_one, not_space_class. }
  split; [done|]. split; [|split; [done|split]].
  - repeat (apply eats_andthen || apply eats_opt); try done;
      by apply eats_one, not_space_class.
  - apply eats_andthen; [done|].
    repeat (apply eats_andthen || apply eats_opt); try done;
      by apply eats_one, not_space_class.
  - by apply eats_many1, not_space_class.
Qed.

Lemma numeric_form_no_space (s : pystr) :
  32 ∉ s -> numeric_form s = comma_to_point <$> s.
Proof.
  intros Hs. unfold numeric_form.
  change (fun c : N => if c =? 44 then 46 else c) with comma_to_point.
  induction s as [|c s IH]; [done|].
  rewrite not_elem_of_cons in Hs. destruct Hs as [Hc Hs].
  rewrite fmap_cons, filter_cons, IH by done.
  rewrite decide_True; [done|].
  unfold comma_to_point. destruct (c =? 44); [done|congruence].
Qed.

(** X11.  An answer the mathematics or physics validator accepts for a
    FreeText task holds no space, so formatting it only trims it and
    turns its commas into points: no character is dropped and the length
    of the trimmed answer is kept. *)
Theorem validated_answer_format (sc : pyval -> pystr) (cls : CheckerClass)
    (task : Task) (v : pyval) :
  cls = MathProfChecker \/ cls = PhysicsChecker ->
  task_type task = SHORT_ANSWER ->
  validate_answer_format sc cls task v = true ->
  (32 ∉ strip (py_str sc v))
  /\ format_answer sc cls task v
     = Ok (comma_to_point <$> strip (py_str sc v))
  /\ (forall out, format_answer sc cls task v = Ok out ->
        length out = length (strip (py_str sc v))).
Proof.
  intros Hcls Ht Hvalid.
  destruct numbers_eat_no_space as [Hn [Hf [Hd [He Hw]]]].
  assert (Hspace : 32 ∉ strip (py_str sc v)).
  { assert (Hall : Forall (fun c => negb (c =? 32) = true)
                     (strip (py_str sc v))).
    { destruct Hcls as [-> | ->]; cbn [validate_answer_format] in Hvalid;
        unfold math_validate, physics_validate in Hvalid;
        rewrite decide_True in Hvalid by done; cbv zeta in Hvalid.
      - destruct (full number (strip (py_str sc v))) eqn:H1;
          [by eapply (full_eats _ number)|].
        destruct (full fraction (strip (py_str sc v))) eqn:H2;
          [by eapply (full_eats _ fraction)|].
        destruct (full (many1 decimal_digit) (strip (py_str sc v))) eqn:H3;
          [by eapply (full_eats _ (many1 decimal_digit))|done].
      - destruct (full (andthen number exponent) (strip (py_str sc v))) eqn:H1;
          [by eapply (full_eats _ (andthen number exponent))|].
        destruct (full (many1 word_char) (strip (py_str sc v))) eqn:H2;
          [by eapply (full_eats _ (many1 word_char))|done]. }
    rewrite Forall_forall in Hall. intros Hin. by apply Hall in Hin. }
  assert (Hfmt : format_answer sc cls task v
                 = Ok (comma_to_point <$> strip (py_str sc v))).
  { unfold format_answer.
    destruct Hcls as [-> | ->]; rewrite decide_True by done; f_equal.
    - rewrite (proj1 (format_numeric_form sc v)).
      by apply numeric_form_no_space.
    - rewrite (proj2 (format_numeric_form sc v)).
      by apply numeric_form_no_space. }
  split; [done|]. split; [done|].
  intros out. rewrite Hfmt. intros [= <-]. by rewrite length_fmap.
Qed.

Lemma validated_answer_format_witness :
  format_answer (fun _ => []) MathProfChecker (sample_task SHORT_ANSWER None)
    (VStr (u " -12,75 "))
  = Ok (u "-12.75").
Proof.
  refine (eq_trans (proj1 (proj2 (validated_answer_format (fun _ => [])
            MathProfChecker (sample_task SHORT_ANSWER None)
            (VStr (u " -12,75 ")) _ _ _))) _).
  - by left.
  - reflexivity.
  - reflexivity.
  - reflexivity.
Defined.

Lemma sub_spaces_nil (t : pystr) : sub_spaces false t = [] <-> t = [].
Proof.
  split; [|by intros ->]. destruct t as [|c t]; [done|]. simpl.
  by destruct (isspace c).
Qed.

(** X12.  For a FreeText task the Russian validator accepts an answer
    exactly when the Russian checker formats it to a string that is not
    empty. *)
Theorem russian_validate_nonempty (sc : pyval -> pystr) (task : Task)
    (v : pyval) :
  task_type task = SHORT_ANSWER ->
  validate_answer_format sc RussianChecker task v = true
  <-> format_answer sc RussianChecker task v <> Ok [].
Proof.
  intros Ht. cbn [validate_answer_format]. unfold russian_validate, format_answer.
  rewrite !decide_True by done. cbv zeta. unfold _format_russian_short_answer.
  destruct (strip (py_str sc v)) as [|c t] eqn:Hstrip.
  - simpl. split; [done|]. intros H. exact (False_ind _ (H eq_refl)).
  - split; [|intros _; reflexivity].
    intros _ [= H]. by destruct (isspace c).
Qed.

Lemma russian_validate_nonempty_witness :
  validate_answer_format (fun _ => []) RussianChecker
    (sample_task SHORT_ANSWER None) (VStr [32; 9]) = false.
Proof.
  destruct (validate_answer_format (fun _ => []) RussianChecker
              (sample_task SHORT_ANSWER None) (VStr [32; 9])) eqn:Hv; [|done].
  exfalso.
  apply (proj1 (russian_validate_nonempty (fun _ => [])
                  (sample_task SHORT_ANSWER None) (VStr [32; 9]) eq_refl) Hv).
  reflexivity.
Defined.

Lemma at_end_no_match (f : N -> bool) (r : pystr) :
  at_end r = true -> f 10 = false -> one f r = None.
Proof.
  intros [-> | ->]%at_end_cases H10; simpl; [done|]. by rewrite H10.
Qed.

Lemma number_then_exponent (a r : pystr) :
  number a = Some r -> at_end r = true -> full (andthen number exponent) a = true.
Proof.
  intros Hn Hend. unfold full, andthen. rewrite Hn.
  unfold exponent, opt, andthen.
  by rewrite (at_end_no_match _ r Hend).
Qed.

Lemma digits_are_number (a : pystr) :
  full (many1 decimal_digit) a = true -> full number a = true.
Proof.
  unfold full, many1. destruct (take_drop_while decimal_digit a) as [Ha Hall].
  destruct (take_while decimal_digit a) as [|c p] eqn:Htake; [done|].
  intros Hend. unfold number, andthen, opt.
  assert (Hone : one (just 45) a = None).
  { rewrite Ha. simpl. apply Forall_cons in Hall as [Hc _].
    unfold just. destruct (N.eqb_spec c 45) as [->|]; [done|done]. }
  rewrite Hone. unfold many1. rewrite Htake.
  by rewrite (at_end_no_match _ _ Hend).
Qed.

(** X13.  Every answer the mathematics validator accepts, a fraction
    apart, is accepted by the physics validator. *)
Theorem math_valid_is_physics_valid (sc : pyval -> pystr) (task : Task)
    (v : pyval) :
  validate_answer_format sc MathProfChecker task v = true ->
  full fraction (strip (py_str sc v)) = false ->
  validate_answer_format sc PhysicsChecker task v = true.
Proof.
  cbn [validate_answer_format]. unfold math_validate, physics_validate.
  case_decide; [|done]. cbv zeta. intros Hmath Hfrac. rewrite Hfrac in Hmath.
  assert (Hnum : full number (strip (py_str sc v)) = true).
  { destruct (full number (strip (py_str sc v))) eqn:Hn; [done|].
    rewrite <- Hn. apply digits_are_number.
    by destruct (full (many1 decimal_digit) (strip (py_str sc v))). }
  unfold full in Hnum.
  destruct (number (strip (py_str sc v))) as [r|] eqn:Hr; [|done].
  by rewrite (number_then_exponent _ r Hr Hnum).
Qed.

Lemma math_valid_is_physics_valid_witness :
  validate_answer_format (fun _ => []) PhysicsChecker
    (sample_task SHORT_ANSWER None) (VStr (u "-3,25")) = true.
Proof.
  apply (math_valid_is_physics_valid (fun _ => [])
           (sample_task SHORT_ANSWER None) (VStr (u "-3,25")));
    reflexivity.
Defined.

Example validators_on_samples :
  validate_answer_format (fun _ => []) MathProfChecker
    (sample_task SHORT_ANSWER None) (VStr (u "-3/4")) = true
  /\ validate_answer_format (fun _ => []) MathProfChecker
       (sample_task SHORT_ANSWER None) (VStr (u "1 234")) = false
  /\ validate_answer_format (fun _ => []) MathProfChecker
       (sample_task SHORT_ANSWER None) (VStr (u "1e5")) = false
  /\ validate_answer_format (fun _ => []) PhysicsChecker
       (sample_task SHORT_ANSWER None) (VStr (u "1,5e-5")) = true
  /\ validate_answer_format (fun _ => []) PhysicsChecker
       (sample_task SHORT_ANSWER None) (VStr (u "увеличится")) = true
  /\ validate_answer_format (fun _ => []) PhysicsChecker
       (sample_task SHORT_ANSWER None) (VStr (u "-3/4")) = false
  /\ validate_answer_format (fun _ => []) MathProfChecker
       (sample_task SHORT_ANSWER None) (VInt (-7)) = true.
Proof. repeat split. Qed.

(** ** Task directories *)











Example task_directory_sample :
  get_task_directory (u "data")
    (mkTask (u "0A1B") (u "0A1B") (u "physics") SHORT_ANSWER [] []
            None None None None [] [u "1.2.3 Сила тока"] [])
  = Ok (mkPath [] [u "data"; u "physics"; u "1_2_3"; u "0A1B"])
  /\ get_task_directory (u "data")
       (mkTask (u "/etc/0A1B") (u "0A1B") (u "physics") SHORT_ANSWER [] []
               None None None None [] [] [])
     = Ok (mkPath (u "/") [u "etc"; u "0A1B"])
  /\ get_task_directory (u "data")
       (mkTask [] (u "0A1B") (u "physics") SHORT_ANSWER [] []
               None None None None [] [u "1/2"] [])
     = Ok (mkPath [] [u "data"; u "physics"; u "1"; u "2"]).
Proof. repeat split. Qed.

(** ** Records of a page *)

Lemma concat_trimmed (l : list pystr) :
  Forall (fun x => x <> [] /\ starts_clean x /\ starts_clean (rev x)) l ->
  starts_clean (concat l) /\ starts_clean (rev (concat l)).
Proof.
  induction 1 as [|x l (Hne & Hx & Hrx) _ [IH1 IH2]]; [done|].
  cbn [concat]. split.
  - destruct x as [|c x]; done.
  - rewrite rev_app_distr.
    destruct (rev (concat l)) as [|c r] eqn:Hrev; [done|]. exact IH2.
Qed.

Lemma get_text_strip_trimmed (t : tag) :
  strip (get_text_strip t) = get_text_strip t.
Proof.
  unfold get_text_strip. rewrite join_empty_concat.
  assert (H : Forall (fun x => x <> [] /\ starts_clean x
                               /\ starts_clean (rev x))
                (List.filter (fun s => negb (bool_decide (s = [])))
                             (map strip (all_strings t)))).
  { apply Forall_forall. intros x Hx%list_elem_of_In%filter_In.
    destruct Hx as [Hx Hne]. apply in_map_iff in Hx as [y [<- _]].
    apply negb_true_iff, bool_decide_eq_false in Hne.
    split; [done|]. apply strip_trimmed. }
  apply concat_trimmed in H as [H1 H2]. by apply strip_fix.
Qed.

(** Scripts are no part of an element's text: a letter cell with a script
    gives the letter, and a display id made of a script only gives no
    record. *)
Example text_without_scripts :
  get_text (top cell_with_script) = u "А"
  /\ _extract_task_id (top span_with_script) = Some []
  /\ parse_task_block (fun _ => []) (fun _ => false) (fun _ => [])
       (fun _ => []) (fun _ task => Ok task) sample_parser
       (top span_with_script) = None.
Proof. repeat split. Qed.

(** X15.  A record that [parse_task_block] returns is the post-processing
    of a task built from the block: its identifier is the value of the
    block's guid control and is not empty, its display id is not empty
    and is the text of the canselect span, which has no white space at
    its ends and leaves out the text of scripts, or, without that span,
    the first eight characters of the identifier, its subject is the parser's
    subject key, its answer fields are those of [parse_answer_block], its
    images are extracted from its question markup, and its metadata are
    empty.  So a guid control without a value gives no record. *)
Theorem parse_task_block_record (tag_str : node -> pystr)
    (decimal_digit : N -> bool) (images_of : pystr -> list pystr)
    (kes_of : tag -> list pystr) (post : parser -> Task -> result Task)
    (self : parser) (block : tag) (task : Task) :
  parse_task_block tag_str decimal_digit images_of kes_of post self block
  = Some task ->
  exists guid_input task0 answer,
    find block (u "input") None [(u "name", u "guid")] = Some guid_input
    /\ guid task0 = get guid_input (u "value") []
    /\ guid task0 <> []
    /\ task_id task0 <> []
    /\ (find block (u "span") (Some (u "canselect")) [] = None ->
        task_id task0 = take 8 (guid task0))
    /\ (forall span, find block (u "span") (Some (u "canselect")) [] = Some span ->
        task_id task0 = get_text_strip span
        /\ strip (task_id task0) = task_id task0)
    /\ subject task0 = subject_key (parser_config self)
    /\ parse_answer_block tag_str decimal_digit block = Ok answer
    /\ task_type task0 = answer.1
    /\ answer_variants task0 = ad_answer_variants answer.2
    /\ matching_options task0 = ad_matching_options answer.2
    /\ matching_choices task0 = ad_matching_choices answer.2
    /\ answer_unit task0 = ad_answer_unit answer.2
    /\ (question_html task0, question_text task0)
       = _extract_question tag_str block
    /\ images task0 = images_of (question_html task0)
    /\ kes_codes task0 = kes_of block
    /\ metadata task0 = []
    /\ post self task0 = Ok task.
Proof.
  unfold parse_task_block, _extract_guid, _extract_task_id.
  destruct (find block (u "input") None [(u "name", u "guid")])
    as [guid_input|] eqn:Hguid; [|done].
  set (guid := get guid_input (u "value") []).
  destruct guid as [|g0 guid'] eqn:Hg; [done|].
  cbn [falsy orb].
  destruct (find block (u "span") (Some (u "canselect")) [])
    as [span|] eqn:Hspan.
  - destruct (get_text_strip span) as [|i0 id'] eqn:Hid; [done|].
    cbn [falsy]. destruct (_extract_question tag_str block) as [qh qt] eqn:Hq.
    destruct (parse_answer_block tag_str decimal_digit block)
      as [[tt data]|e] eqn:Hans; [|done].
    rewrite bind_Ok.
    match goal with
    | |- context [post self ?t] => set (task0 := t)
    end.
    destruct (post self task0) as [task'|e] eqn:Hpost; [|done].
    intros [= <-]. exists guid_input, task0, (tt, data).
    repeat split; try done.
    + match goal with H : Some _ = Some _ |- _ => injection H as <- end.
      by rewrite Hid.
    + change (task_id task0) with (i0 :: id'). rewrite <- Hid.
      apply get_text_strip_trimmed.
  - cbn [falsy]. destruct (_extract_question tag_str block) as [qh qt] eqn:Hq.
    destruct (parse_answer_block tag_str decimal_digit block)
      as [[tt data]|e] eqn:Hans; [|done].
    rewrite bind_Ok.
    match goal with
    | |- context [post self ?t] => set (task0 := t)
    end.
    destruct (post self task0) as [task'|e] eqn:Hpost; [|done].
    intros [= <-]. exists guid_input, task0, (tt, data).
    repeat split; try done.
Qed.

Lemma parse_task_block_record_witness :
  exists task,
    parse_task_block (fun _ => []) (fun _ => false) (fun _ => [])
      (fun _ => []) (fun _ task => Ok task) sample_parser second_block
    = Some task
    /\ guid task = u "0F0F0F0F99"
    /\ task_id task = u "0F0F0F0F".
Proof.
  eexists. split; [reflexivity|].
  destruct (parse_task_block_record (fun _ => []) (fun _ => false)
              (fun _ => []) (fun _ => []) (fun _ task => Ok task)
              sample_parser second_block _ eq_refl)
    as [guid_input [task0 [answer [_ [_ [_ [_ [_ [_ [_ [_ H]]]]]]]]]]].
  split; reflexivity.
Defined.

(** ** Multiple-choice variants *)

Lemma parse_multiple_choice_loop (rows : list tag) (k : nat)
    (acc : list AnswerVariant) :
  for_loop
    (fun variants (idx_row : nat * tag) =>
       let '(idx, row) := idx_row in
       match find row (u "input") None [(u "type", u "checkbox")] with
       | None => Ok variants
       | Some checkbox =>
         text_cell ← last_item (find_all row (u "td") None []);
         let variant_text := _clean_text (get_text text_cell) in
         let input_name :=
           get checkbox (u "name") (u "test" ++ str_of_int (Z.of_nat idx)) in
         Ok (variants
               ++ [mkAnswerVariant (Z.of_nat idx) variant_text input_name])
       end)
    (enumerate_from k rows) acc
  = if forallb (fun row =>
                  negb (bool_decide
                          (is_Some (find row (u "input") None
                                      [(u "type", u "checkbox")])))
                  || bool_decide (is_Some (last (find_all row (u "td") None []))))
               rows
    then Ok (acc ++ omap row_variant (enumerate_from k rows))
    else Raise (IndexError (u "list index out of range")).
Proof.
  revert k acc. induction rows as [|row rows IH]; intros k acc.
  - simpl. by rewrite app_nil_r.
  - cbn [enumerate_from for_loop forallb omap list_omap row_variant].
    destruct (find row (u "input") None [(u "type", u "checkbox")])
      as [checkbox|] eqn:Hbox.
    + unfold last_item.
      destruct (last (find_all row (u "td") None [])) as [cell|] eqn:Hlast.
      * rewrite !bind_Ok, IH. cbn [negb orb andb].
        rewrite bool_decide_eq_true_2 by (by eexists). cbn [orb andb].
        destruct (forallb _ rows); [|done].
        by rewrite <- app_assoc.
      * rewrite bool_decide_eq_true_2 by (by eexists).
        rewrite bool_decide_eq_false_2 by (by intros [? ?]).
        done.
    + rewrite bind_Ok, IH.
      rewrite bool_decide_eq_false_2 by (by intros [? ?]). cbn [negb orb andb].
      by destruct (forallb _ rows).
Qed.

Lemma omap_length_le {A B} (f : A -> option B) (l : list A) :
  (length (omap f l) <= length l)%nat.
Proof.
  induction l as [|x l IH]; [done|]. csimpl.
  destruct (f x); simpl; lia.
Qed.

Lemma forallb_false_exists {A} (f : A -> bool) (l : list A) :
  forallb f l = false -> exists x, x ∈ l /\ f x = false.
Proof.
  induction l as [|x l IH]; [done|]. simpl.
  destruct (f x) eqn:Hx.
  - intros [y [Hy Hfy]]%IH. exists y. split; [by right|done].
  - intros _. exists x. split; [by left|done].
Qed.

Lemma row_variant_index (k : nat) (rows : list tag) (v : AnswerVariant) :
  v ∈ omap row_variant (enumerate_from k rows) ->
  exists (i : nat) row,
    rows !! i = Some row /\ row_variant ((k + i)%nat, row) = Some v
    /\ index v = Z.of_nat (k + i).
Proof.
  intros [[j row] [Hin Hv]]%list_elem_of_omap.
  apply enumerate_from_lookup in Hin as [Hle Hrow].
  exists (j - k)%nat, row. replace (k + (j - k))%nat with j by lia.
  split; [done|]. split; [done|].
  unfold row_variant in Hv.
  destruct (find row _ _ _); [|done].
  destruct (last _); [|done]. by injection Hv as <-.
Qed.

Lemma row_variant_sorted (k : nat) (rows : list tag) :
  StronglySorted Z.lt (index <$> omap row_variant (enumerate_from k rows)).
Proof.
  revert k. induction rows as [|row rows IH]; intros k; [constructor|].
  cbn [enumerate_from omap list_omap].
  destruct (row_variant (k, row)) as [v|] eqn:Hv; [|apply IH].
  rewrite fmap_cons. constructor; [apply IH|].
  apply Forall_forall. intros z [w [-> Hw]]%list_elem_of_fmap.
  apply row_variant_index in Hw as [i [r [_ [_ ->]]]].
  destruct (row_variant_index k (row :: rows) v) as [i0 [r0 [Hr0 [Hv0 Hi0]]]].
  { cbn [enumerate_from omap list_omap]. rewrite Hv. by left. }
  unfold row_variant in Hv.
  destruct (find row _ _ _); [|done]. destruct (last _); [|done].
  injection Hv as <-. simpl. lia.
Qed.

(** X16.  [_parse_multiple_choice] raises [IndexError] exactly when some
    active-distractor row holds a checkbox and no table cell.  Otherwise
    it gives the MultiSelect shape with one variant for each active row
    that holds a checkbox, in document order: a variant's index is the
    position of its row among all active rows, so the indices increase
    strictly and stay below the number of active rows; its text is the
    cleaned text of the row's last cell and its field name the checkbox's
    name, or [test<index>].  When every active row holds a checkbox, the
    [i]-th variant has index [i]. *)
Theorem parse_multiple_choice_variants (block : tag) :
  let rows := find_all block (u "tr") (Some (u "active-distractor")) [] in
  ((exists row, row ∈ rows
      /\ is_Some (find row (u "input") None [(u "type", u "checkbox")])
      /\ find_all row (u "td") None [] = []) <->
   _parse_multiple_choice block = Raise (IndexError (u "list index out of range")))
  /\ (is_Ok (_parse_multiple_choice block) = false ->
      _parse_multiple_choice block
      = Raise (IndexError (u "list index out of range")))
  /\ (forall shape data,
       _parse_multiple_choice block = Ok (shape, data) ->
       shape = MULTIPLE_CHOICE
       /\ ad_answer_variants data = Some (omap row_variant (enumerate rows))
       /\ (length (omap row_variant (enumerate rows)) <= length rows)%nat
       /\ StronglySorted Z.lt (index <$> omap row_variant (enumerate rows))
       /\ (forall v, v ∈ omap row_variant (enumerate rows) ->
            exists (i : nat) row checkbox cell,
              rows !! i = Some row
              /\ index v = Z.of_nat i
              /\ find row (u "input") None [(u "type", u "checkbox")]
                 = Some checkbox
              /\ last (find_all row (u "td") None []) = Some cell
              /\ av_text v = _clean_text (get_text cell)
              /\ input_name v
                 = get checkbox (u "name") (u "test" ++ str_of_int (Z.of_nat i)))
       /\ ((forall row, row ∈ rows ->
              is_Some (find row (u "input") None [(u "type", u "checkbox")])) ->
           length (omap row_variant (enumerate rows)) = length rows
           /\ forall (i : nat) v,
                omap row_variant (enumerate rows) !! i = Some v ->
                index v = Z.of_nat i)).
Proof.
  intros rows. unfold _parse_multiple_choice. fold rows.
  unfold enumerate. rewrite parse_multiple_choice_loop.
  destruct (forallb _ rows) eqn:Hall.
  - split.
    { split; [|by rewrite bind_Ok].
      intros [row [Hin [Hbox Htd]]]. exfalso.
      rewrite forallb_forall in Hall.
      specialize (Hall row (proj1 (list_elem_of_In _ _) Hin)).
      cbv beta in Hall. rewrite Htd in Hall.
      apply orb_true_iff in Hall as [Hall|Hall].
      - apply negb_true_iff, bool_decide_eq_false in Hall. done.
      - apply bool_decide_eq_true in Hall as [? ?]. done. }
    split; [by rewrite bind_Ok|].
    intros shape data. rewrite bind_Ok. intros [= <- <-]. cbn [app].
    split; [done|]. split; [done|].
    split; [rewrite <- (enumerate_from_length 0 rows); apply omap_length_le|].
    split; [apply row_variant_sorted|].
    split.
    { intros v Hv. apply row_variant_index in Hv as [i [row [Hrow [Hv Hi]]]].
      cbn [Nat.add] in *. unfold row_variant in Hv.
      destruct (find row (u "input") None [(u "type", u "checkbox")])
        as [checkbox|] eqn:Hbox; [|done].
      destruct (last (find_all row (u "td") None [])) as [cell|] eqn:Hcell;
        [|done].
      injection Hv as <-. by exists i, row, checkbox, cell. }
    intros Hboxes.
    destruct (omap_all_Some row_variant (enumerate_from 0 rows)) as [Hlen Hlook].
    { intros [j row] [_ Hrow]%enumerate_from_lookup.
      apply list_elem_of_lookup_2 in Hrow as Hin.
      destruct (Hboxes row Hin) as [checkbox Hbox].
      rewrite forallb_forall in Hall.
      specialize (Hall row (proj1 (list_elem_of_In _ _) Hin)).
      cbv beta in Hall. rewrite Hbox in Hall.
      apply orb_true_iff in Hall as [Hall|Hall].
      { apply negb_true_iff, bool_decide_eq_false in Hall.
        exfalso. apply Hall. by eexists. }
      apply bool_decide_eq_true in Hall as [cell Hcell].
      unfold row_variant. rewrite Hbox, Hcell. by eexists. }
    split; [by rewrite Hlen, enumerate_from_length|].
    intros i v Hv.
    destruct (rows !! i) as [row|] eqn:Hrow.
    + rewrite (Hlook i (i, row)) in Hv
        by (by apply (enumerate_from_lookup_Some 0 i rows row)).
      unfold row_variant in Hv.
      destruct (find row _ _ _); [|done]. destruct (last _); [|done].
      by injection Hv as <-.
    + apply lookup_lt_Some in Hv. rewrite Hlen, enumerate_from_length in Hv.
      apply lookup_ge_None in Hrow. lia.
  - split; [|split; [done|by intros shape data]].
    split; [done|]. intros _.
    apply forallb_false_exists in Hall as [row [Hin Hrow]].
    exists row. split; [done|].
    apply orb_false_iff in Hrow as [Hbox Htd].
    apply negb_false_iff, bool_decide_eq_true in Hbox.
    apply bool_decide_eq_false in Htd. split; [done|].
    destruct (find_all row (u "td") None []) as [|c cs] eqn:Hcells; [done|].
    exfalso. apply Htd. apply last_is_Some. done.
Qed.

(** ** Shapes *)

Lemma unit_char_not_space (c : N) : unit_char c = true -> isspace c = false.
Proof.
  unfold unit_char, isspace. intros H.
  repeat (apply orb_true_iff in H as [H|H]);
    repeat match goal with
           | H : _ && _ = true |- _ => apply andb_true_iff in H as [? ?]
           | H : (_ <=? _) = true |- _ => apply N.leb_le in H
           | H : (_ =? _) = true |- _ => apply N.eqb_eq in H
           end;
    repeat (apply orb_false_iff; split);
    rewrite ?andb_false_iff, ?N.leb_gt, ?N.eqb_neq; lia.
Qed.

Lemma search_unit_chars (s g : pystr) :
  search_unit s = Some g -> g <> [] /\ Forall (fun c => unit_char c = true) g.
Proof.
  induction s as [|c s IH]; [done|]. cbn [search_unit].
  destruct (unit_at (c :: s)) as [g'|] eqn:Hat; [|exact IH].
  intros [= ->]. unfold unit_at in Hat.
  destruct (startswith (c :: s) (u "</input>")); [|done].
  destruct (take_drop_while unit_char (drop_while isspace (drop 8 (c :: s))))
    as [_ Hall].
  destruct (take_while unit_char _) as [|x xs]; [done|].
  injection Hat as <-. done.
Qed.

(** X17.  [_parse_short_answer] always gives the FreeText shape with no
    option data.  A unit hint, when there is one, is not empty and is made
    of Cyrillic and Latin letters and degree signs only, so trimming does
    not change it. *)
Theorem parse_short_answer_unit (tag_str : node -> pystr) (block : tag) :
  (_parse_short_answer tag_str block).1 = SHORT_ANSWER
  /\ ad_answer_variants (_parse_short_answer tag_str block).2 = None
  /\ ad_matching_options (_parse_short_answer tag_str block).2 = None
  /\ ad_matching_choices (_parse_short_answer tag_str block).2 = None
  /\ (forall unit_hint,
       ad_answer_unit (_parse_short_answer tag_str block).2 = Some unit_hint ->
       unit_hint <> []
       /\ Forall (fun c => unit_char c = true) unit_hint
       /\ exists text_input parent_tag,
            find block (u "input") None
                 [(u "type", u "text"); (u "name", u "answer")] = Some text_input
            /\ parent text_input = Some parent_tag
            /\ search_unit (tag_str parent_tag.2) = Some unit_hint).
Proof.
  unfold _parse_short_answer. cbn [fst snd ad_answer_variants
    ad_matching_options ad_matching_choices ad_answer_unit].
  repeat (split; [done|]).
  intros unit_hint.
  destruct (find block (u "input") None
              [(u "type", u "text"); (u "name", u "answer")])
    as [text_input|] eqn:Hfind; [|done].
  destruct (parent text_input) as [parent_tag|] eqn:Hparent; [|done].
  destruct (search_unit (tag_str parent_tag.2)) as [g|] eqn:Hg; [|done].
  intros [= <-]. destruct (search_unit_chars _ _ Hg) as [Hne Hall].
  assert (Hstrip : strip g = g).
  { apply strip_fix.
    - destruct g as [|c g]; [done|]. apply Forall_cons in Hall as [Hc _].
      by apply unit_char_not_space.
    - destruct (rev g) as [|c r] eqn:Hrev; [done|].
      apply unit_char_not_space. rewrite Forall_forall in Hall.
      apply Hall. apply list_elem_of_In, in_rev. rewrite Hrev. by left. }
  rewrite Hstrip. split; [done|]. split; [done|].
  by exists text_input, parent_tag.
Qed.

Lemma parse_answer_block_shape_unit (tag_str : node -> pystr)
    (decimal_digit : N -> bool) (block : tag) (shape : TaskType)
    (data : answer_data) (unit_hint : pystr) :
  parse_answer_block tag_str decimal_digit block = Ok (shape, data) ->
  ad_answer_unit data = Some unit_hint ->
  shape = SHORT_ANSWER /\ Forall (fun c => unit_char c = true) unit_hint.
Proof.
  unfold parse_answer_block.
  destruct (find (variants_block_of block) (u "input") None
              [(u "type", u "text"); (u "name", u "answer")]).
  { intros [= <- <-]. unfold _parse_short_answer. cbn [ad_answer_unit].
    destruct (find _ _ _ _) as [text_input|]; [|done].
    destruct (parent text_input) as [parent_tag|]; [|done].
    destruct (search_unit (tag_str parent_tag.2)) as [g|] eqn:Hg; [|done].
    intros [= <-]. split; [done|].
    destruct (search_unit_chars _ _ Hg) as [_ Hall].
    apply Forall_forall. intros c Hc. rewrite Forall_forall in Hall.
    apply Hall. by apply strip_chars. }
  destruct (find_all (variants_block_of block) (u "input") None
              [(u "type", u "checkbox")]).
  - destruct (find_all (variants_block_of block) (u "select") None []);
      intros [= <- <-]; done.
  - unfold _parse_multiple_choice.
    match goal with
    | |- context [for_loop ?body ?l ?a] => destruct (for_loop body l a)
    end; [|done].
    rewrite bind_Ok. intros [= <- <-]. done.
Qed.

(** X18.  What [parse_answer_block] returns has the fields of its shape
    and no others: FreeText has no variants, options or choices;
    MultiSelect has variants and nothing else; Matching has options and
    choices and nothing else.  It never gives the extended-answer
    shape. *)
Theorem parse_answer_block_fields (tag_str : node -> pystr)
    (decimal_digit : N -> bool) (block : tag) (shape : TaskType)
    (data : answer_data) :
  parse_answer_block tag_str decimal_digit block = Ok (shape, data) ->
  match shape with
  | SHORT_ANSWER =>
    ad_answer_variants data = None /\ ad_matching_options data = None
    /\ ad_matching_choices data = None
  | MULTIPLE_CHOICE =>
    is_Some (ad_answer_variants data) /\ ad_matching_options data = None
    /\ ad_matching_choices data = None /\ ad_answer_unit data = None
  | MATCHING =>
    ad_answer_variants data = None /\ is_Some (ad_matching_options data)
    /\ is_Some (ad_matching_choices data) /\ ad_answer_unit data = None
  | EXTENDED_ANSWER => False
  end.
Proof.
  unfold parse_answer_block.
  destruct (find (variants_block_of block) (u "input") None
              [(u "type", u "text"); (u "name", u "answer")]).
  { intros [= <- <-]. done. }
  destruct (find_all (variants_block_of block) (u "input") None
              [(u "type", u "checkbox")]).
  - destruct (find_all (variants_block_of block) (u "select") None []);
      intros [= <- <-]; [done|].
    unfold _parse_matching. cbn. repeat split; by eexists.
  - unfold _parse_multiple_choice.
    match goal with
    | |- context [for_loop ?body ?l ?a] => destruct (for_loop body l a)
    end; [|done].
    rewrite bind_Ok. intros [= <- <-]. cbn. repeat split. by eexists.
Qed.

Lemma parse_answer_block_fields_witness :
  is_Some (ad_matching_options matching_data)
  /\ ad_answer_variants matching_data = None.
Proof.
  pose proof (parse_answer_block_fields (fun _ => []) (fun _ => false)
                (top fragment_matching) MATCHING matching_data eq_refl)
    as [H1 [H2 _]].
  split; [exact H2|exact H1].
Defined.

(** ** Units of parsed answers *)

Lemma first_type_found (items : dict pystr (list pystr)) (unit : pystr) :
  first_type items unit = u "other"
  \/ exists units, (first_type items unit, units) ∈ items /\ unit ∈ units.
Proof.
  induction items as [|[name units] items IH]; [by left|].
  cbn [first_type]. case_bool_decide as Hin.
  - right. exists units. split; [by left|done].
  - destruct IH as [IH|[units' [Hitem Hunit]]]; [by left|].
    right. exists units'. split; [by right|done].
Qed.

Lemma classify_unit_slash (unit : pystr) :
  (47 ∉ unit) ->
  _classify_unit unit <> u "velocity"
  /\ _classify_unit unit <> u "acceleration".
Proof.
  intros Hslash.
  unfold _classify_unit, unit_types. cbn [first_type].
  repeat case_bool_decide;
    try (split; intros Heq; vm_compute in Heq; discriminate);
    exfalso;
    match goal with
    | H : unit ∈ _ |- _ =>
      rewrite !elem_of_cons, elem_of_nil in H; destruct H as [->|[->|[]]]
    end; apply Hslash; apply list_elem_of_In; vm_compute; auto 10.
Qed.

(** X19.  A unit hint that [parse_answer_block] returns belongs to a
    FreeText answer and holds no slash, so [_classify_unit] never files
    the unit of a parsed task under velocity or acceleration; the type it
    gives is other or a type of the table whose list holds the unit. *)
Theorem parsed_unit_type (tag_str : node -> pystr)
    (decimal_digit : N -> bool) (block : tag) (shape : TaskType)
    (data : answer_data) (unit_hint : pystr) :
  parse_answer_block tag_str decimal_digit block = Ok (shape, data) ->
  ad_answer_unit data = Some unit_hint ->
  shape = SHORT_ANSWER
  /\ (47 ∉ unit_hint)
  /\ _classify_unit unit_hint <> u "velocity"
  /\ _classify_unit unit_hint <> u "acceleration"
  /\ (_classify_unit unit_hint = u "other"
      \/ exists units, (_classify_unit unit_hint, units) ∈ unit_types
                       /\ unit_hint ∈ units).
Proof.
  intros Hparse Hunit.
  pose proof (parse_answer_block_shape_unit tag_str decimal_digit block
                shape data unit_hint Hparse Hunit) as [-> Hchars].
  assert (Hslash : 47 ∉ unit_hint).
  { intros Hin. rewrite Forall_forall in Hchars.
    specialize (Hchars 47 Hin). done. }
  destruct (classify_unit_slash unit_hint Hslash) as [Hv Ha].
  repeat (split; [done|]). apply first_type_found.
Qed.

Lemma parsed_unit_type_witness :
  _classify_unit (u "кг") <> u "velocity"
  /\ _classify_unit (u "кг") = u "mass".
Proof.
  pose proof (parsed_unit_type markup_unit (fun _ => false)
                (top fragment_unit) SHORT_ANSWER
                (mkAnswerData None None None (Some (u "кг"))) (u "кг")
                eq_refl eq_refl) as [_ [_ [H _]]].
  split; [exact H|reflexivity].
Defined.

(** ** Pages *)

Lemma collect_omap {A B} (f : A -> option B) (l : list A) (acc : list B) :
  fold_left (fun tasks block => match f block with
                                | Some task => tasks ++ [task]
                                | None => tasks
                                end) l acc
  = acc ++ omap f l.
Proof.
  revert acc. induction l as [|x l IH]; intros acc; simpl.
  - by rewrite app_nil_r.
  - rewrite IH. destruct (f x); [by rewrite <- app_assoc|done].
Qed.

(** X20.  [parse_page] gives the records of the page's qblock divisions
    in document order, leaving out the blocks that give none: a block
    without a guid value, or one whose parsing raises, costs its own
    record and no other.  So a page has at most as many tasks as blocks
    with a guid value, and every task comes from a block of the page. *)
Theorem parse_page_tasks (tag_str : node -> pystr)
    (decimal_digit : N -> bool) (images_of : pystr -> list pystr)
    (kes_of : tag -> list pystr) (post : parser -> Task -> result Task)
    (self : parser) (soup : tag) :
  let blocks := find_all soup (u "div") (Some (u "qblock")) [] in
  let block_task :=
    parse_task_block tag_str decimal_digit images_of kes_of post self in
  let page :=
    parse_page tag_str decimal_digit images_of kes_of post self soup in
  page = omap block_task blocks
  /\ (length page
      <= length (filter (fun b => falsy (_extract_guid b) = false) blocks))%nat
  /\ (forall task, task ∈ page ->
        exists block, block ∈ blocks /\ block_task block = Some task)
  /\ (forall before block after,
        blocks = before ++ block :: after -> block_task block = None ->
        page = omap block_task before ++ omap block_task after).
Proof.
  intros blocks block_task page.
  assert (Hpage : page = omap block_task blocks).
  { unfold page, parse_page. fold blocks. fold block_task.
    by rewrite collect_omap. }
  split; [done|]. rewrite Hpage. split; [|split].
  - clear Hpage page. induction blocks as [|b bs IH]; [done|].
    rewrite filter_cons. cbn [omap list_omap].
    destruct (decide (falsy (_extract_guid b) = false)) as [Hg|Hg].
    + destruct (block_task b); simpl; lia.
    + assert (block_task b = None) as ->.
      { unfold block_task, parse_task_block.
        destruct (falsy (_extract_guid b)); [done|]. done. }
      done.
  - intros task [block [Hin Hb]]%list_elem_of_omap. by exists block.
  - intros before block after -> Hnone.
    rewrite omap_app. cbn [omap list_omap]. by rewrite Hnone.
Qed.

(** ** The dict form of a task *)

Lemma dict_set_same {V} (d : list (pystr * V)) (k : pystr) (v : V) :
  dict_get d k = Some v -> dict_set d k v = d.
Proof.
  induction d as [|[k' v'] d IH]; cbn [dict_get dict_set]; [done|].
  destruct (decide (k' = k)) as [->|Hne].
  - by intros [= ->].
  - intros H. by rewrite IH.
Qed.

Lemma mapM_built {A B C} (build : B -> result C) (f : A -> B) (g : A -> C)
    (l : list A) :
  (forall x, build (f x) = Ok (g x)) -> mapM build (f <$> l) = Ok (g <$> l).
Proof.
  intros Hf. induction l as [|x l IH]; [done|].
  rewrite !fmap_cons. cbn [mapM]. rewrite Hf, bind_Ok, IH. done.
Qed.

Lemma objects_at_back {A} (call_error : pystr -> jval -> pystr)
    (init_error : pystr -> dict pystr jval -> pystr)
    (iter_error : jval -> pystr) (key cls : pystr)
    (fields : list (pystr * option jval)) (f g : A -> jval)
    (data : list (pystr * jval)) (o : option (list A)) :
  dict_get data key = Some (opt_list f o) ->
  (forall x, object_from init_error call_error cls fields (f x) = Ok (g x)) ->
  objects_at init_error call_error iter_error key cls fields data
  = Ok (dict_set data key (opt_list g o)).
Proof.
  intros Hget Hf. unfold objects_at, dict_item. rewrite Hget.
  destruct o as [[|x l]|]; cbn [opt_list default fmap list_fmap truthy].
  - by rewrite dict_set_same.
  - rewrite bind_Ok. cbn [items_of]. rewrite bind_Ok.
    rewrite <- (fmap_cons f), (mapM_built _ f g _ Hf), bind_Ok. done.
  - by rewrite dict_set_same.
Qed.

Lemma TaskType_of_value (repr : jval -> pystr) (t : TaskType) :
  TaskType_of repr (JStr (type_value t)) = Ok t.
Proof. by destruct t. Qed.

Lemma TaskType_of_string (repr : jval -> pystr) (s : pystr) (t : TaskType) :
  TaskType_of repr (JStr s) = Ok t -> s = type_value t.
Proof.
  unfold TaskType_of.
  destruct (list_find _ _) as [[i t']|] eqn:Hfind; [|done].
  intros [= ->]. apply list_find_Some in Hfind as [_ [H _]]. done.
Qed.

(** X21.  [Task.from_dict] undoes [Task.to_dict]: the dict form of a task
    has the thirteen fields in the order of declaration with the type as
    its value string, and building from it gives a task with the same
    fields, the type as a member again and every variant, option and
    choice as an instance of its class. *)
Theorem task_dict_roundtrip (repr : jval -> pystr)
    (init_error : pystr -> dict pystr jval -> pystr)
    (call_error : pystr -> jval -> pystr) (iter_error : jval -> pystr)
    (task : Task) :
  from_dict repr init_error call_error iter_error (to_dict task)
  = Ok (task_object task)
  /\ keys (to_dict task) = task_fields.*1
  /\ dict_get (to_dict task) (u "task_type")
     = Some (JStr (type_value (task_type task))).
Proof.
  split; [|split; reflexivity].
  unfold from_dict.
  change (dict_item (to_dict task) (u "task_type"))
    with (Ok (A := jval) (JStr (type_value (task_type task)))).
  rewrite bind_Ok, TaskType_of_value, bind_Ok. cbv zeta.
  change (dict_set (to_dict task) (u "task_type") (JMember (task_type task)))
    with (asdict task).
  rewrite (objects_at_back call_error init_error iter_error _ _ _
             variant_dict variant_object _ (answer_variants task));
    [|reflexivity|by intros []].
  rewrite bind_Ok.
  rewrite (objects_at_back call_error init_error iter_error _ _ _
             option_dict option_object _ (matching_options task));
    [|reflexivity|by intros []].
  rewrite bind_Ok.
  rewrite (objects_at_back call_error init_error iter_error _ _ _
             choice_dict choice_object _ (matching_choices task));
    [|reflexivity|by intros []].
  rewrite bind_Ok. reflexivity.
Qed.

Lemma dict_get_keys {V} (d : list (pystr * V)) (k : pystr) :
  is_Some (dict_get d k) <-> k ∈ keys d.
Proof.
  unfold keys. induction d as [|[k' v'] d IH]; cbn [dict_get map fst].
  - split; [by intros [? ?]|by intros ?%elem_of_nil].
  - rewrite elem_of_cons. destruct (decide (k' = k)) as [->|Hne].
    + split; [by left|by eexists].
    + rewrite IH. split; [by right|]. intros [->|H]; done.
Qed.

Lemma dict_set_present {V} (d : list (pystr * V)) (k : pystr) (v : V) :
  is_Some (dict_get d k) -> keys (dict_set d k v) = keys d.
Proof.
  intros H%dict_get_keys. rewrite dict_set_keys. by case_decide.
Qed.

Lemma objects_at_keys (init_error : pystr -> dict pystr jval -> pystr)
    (call_error : pystr -> jval -> pystr) (iter_error : jval -> pystr)
    (key cls : pystr) (fields : list (pystr * option jval))
    (data data' : list (pystr * jval)) :
  objects_at init_error call_error iter_error key cls fields data = Ok data' ->
  keys data' = keys data.
Proof.
  unfold objects_at, dict_item.
  destruct (dict_get data key) as [v|] eqn:Hget; cbn [default from_option id].
  - destruct (truthy v); [|by intros [= <-]].
    rewrite bind_Ok. destruct (items_of iter_error v) as [items|]; [|done].
    rewrite bind_Ok. destruct (mapM _ items) as [objects|]; [|done].
    rewrite bind_Ok. intros [= <-]. apply dict_set_present.
    rewrite Hget. by eexists.
  - cbn [truthy]. by intros [= <-].
Qed.

Lemma construct_Ok (init_error : pystr -> dict pystr jval -> pystr)
    (cls : pystr) (fields : list (pystr * option jval))
    (kwargs : list (pystr * jval)) (obj : jval) :
  construct init_error cls fields kwargs = Ok obj ->
  (forall k, k ∈ keys kwargs -> k ∈ fields.*1)
  /\ (forall k, (k, None) ∈ fields -> k ∈ keys kwargs)
  /\ exists values, obj = JObject cls values /\ values.*1 = fields.*1.
Proof.
  unfold construct.
  destruct (forallb _ (keys kwargs)) eqn:Hkeys; [|done].
  destruct (mapM _ fields) as [values|] eqn:Hvalues; [|done].
  intros [= <-]. apply mapM_Some in Hvalues. split; [|split].
  - intros k Hk. rewrite forallb_forall in Hkeys.
    specialize (Hkeys k (proj1 (list_elem_of_In _ _) Hk)).
    by apply bool_decide_eq_true in Hkeys.
  - clear Hkeys. intros k Hk. apply dict_get_keys.
    induction Hvalues as [|field y fields' values' Hfield _ IH]; [by apply elem_of_nil in Hk|].
    apply elem_of_cons in Hk as [<-|Hk]; [|by apply IH].
    cbn [fst snd] in Hfield. destruct (dict_get kwargs k); [by eexists|done].
  - clear Hkeys. exists values. split; [done|].
    induction Hvalues as [|field y fields' values' Hfield _ IH]; [done|].
    rewrite !fmap_cons, IH. f_equal.
    destruct (dict_get kwargs field.1); [by injection Hfield as <-|].
    destruct field.2; [by injection Hfield as <-|done].
Qed.

(** X22.  What [Task.from_dict] asks of a dict.  Without the key
    task_type it raises [KeyError]; with a string there that is not the
    value of a member of [TaskType] it raises [ValueError].  When it
    returns, the dict had no key that is not a field of [Task], it had
    the six fields without a default, and the result is a [Task] with
    all thirteen fields. *)
Theorem from_dict_requirements (repr : jval -> pystr)
    (init_error : pystr -> dict pystr jval -> pystr)
    (call_error : pystr -> jval -> pystr) (iter_error : jval -> pystr)
    (data : dict pystr jval) :
  let from_dict := from_dict repr init_error call_error iter_error in
  (dict_get data (u "task_type") = None ->
   from_dict data = Raise (KeyError (u "task_type")))
  /\ (forall s, dict_get data (u "task_type") = Some (JStr s) ->
        (forall t, s <> type_value t) ->
        from_dict data
        = Raise (ValueError (repr (JStr s) ++ u " is not a valid TaskType")))
  /\ (forall obj, from_dict data = Ok obj ->
        (forall k, k ∈ keys data -> k ∈ task_fields.*1)
        /\ (forall k, k ∈ [u "guid"; u "task_id"; u "subject"; u "task_type";
                            u "question_text"; u "question_html"] ->
              k ∈ keys data)
        /\ exists values, obj = JObject (u "Task") values
                          /\ values.*1 = task_fields.*1).
Proof.
  intros from_dict'. unfold from_dict', from_dict, dict_item.
  split; [|split].
  - by intros ->.
  - intros s -> Hs. rewrite bind_Ok.
    destruct (TaskType_of repr (JStr s)) as [t|e] eqn:Ht.
    + apply TaskType_of_string in Ht. by destruct (Hs t).
    + unfold TaskType_of in Ht.
      destruct (list_find _ _) as [[i t']|]; [done|].
      by injection Ht as <-.
  - intros obj.
    destruct (dict_get data (u "task_type")) as [value|] eqn:Hvalue; [|done].
    rewrite bind_Ok.
    destruct (TaskType_of repr value) as [member|]; [|done].
    rewrite bind_Ok. cbv zeta.
    set (data0 := dict_set data (u "task_type") (JMember member)).
    assert (Hkeys0 : keys data0 = keys data).
    { apply dict_set_present. rewrite Hvalue. by eexists. }
    destruct (objects_at _ _ _ (u "answer_variants") _ _ data0)
      as [data1|] eqn:H1; [|done].
    rewrite bind_Ok.
    destruct (objects_at _ _ _ (u "matching_options") _ _ data1)
      as [data2|] eqn:H2; [|done].
    rewrite bind_Ok.
    destruct (objects_at _ _ _ (u "matching_choices") _ _ data2)
      as [data3|] eqn:H3; [|done].
    rewrite bind_Ok.
    apply objects_at_keys in H1, H2, H3.
    assert (Hkeys : keys data3 = keys data) by congruence.
    intros (Hknown & Hrequired & Hobj)%construct_Ok.
    rewrite Hkeys in Hknown, Hrequired.
    split; [done|]. split; [|done].
    intros k Hk. apply Hrequired. unfold task_fields.
    rewrite !elem_of_cons, elem_of_nil in Hk.
    destruct Hk as [->|[->|[->|[->|[->|[->|[]]]]]]]; repeat constructor.
Qed.
